(** * The dashboard's API client (lib/api.ts) and the stream engine contract

    The first part embeds [pertamina-frontend-build/lib/api.ts]: the
    cached [api] helper, the typed getters built on it and the retrying
    [getCctvStreamUrl].  JavaScript effects (the module-level [apiCache],
    [Date.now()], [fetch], [console], [setTimeout]) are threaded through an
    explicit [World]; exceptions are a [Completion].

    The second part models the supervisor and the segment store of the
    stream engine, which the client only talks to over HTTP. *)

From Stdlib Require Import ZArith String List Ascii Lia.
From stdpp Require Import gmap strings list fin_maps pretty.

Local Open Scope string_scope.
Local Open Scope Z_scope.

(** ** JavaScript values *)

(** JSON-shaped values as they come out of [response.json()].  Numbers are
    integers here: no claim depends on fractions. *)
#[local] Set Warnings "-register-all".

Inductive JsValue : Type :=
  | JUndefined
  | JNull
  | JBool (b : bool)
  | JNum (n : Z)
  | JStr (s : string)
  | JArr (items : list JsValue)
  | JObj (props : list (string * JsValue)).

(** What a [throw] can carry: an [Error] instance (with its [name] and
    [message]) or any other value. *)
Inductive JsThrown : Type :=
  | ThrownError (name message : string)
  | ThrownOther (v : JsValue).

(** [new Error(msg)] *)
Definition new_Error (msg : string) : JsThrown := ThrownError "Error" msg.

(** ToBoolean *)
Definition truthy (v : JsValue) : bool :=
  match v with
  | JUndefined | JNull => false
  | JBool b => b
  | JNum n => negb (n =? 0)
  | JStr s => negb (String.eqb s "")
  | JArr _ | JObj _ => true
  end.

Fixpoint assoc_get {A : Type} (k : string) (l : list (string * A)) : option A :=
  match l with
  | [] => None
  | (k', v) :: rest => if String.eqb k k' then Some v else assoc_get k rest
  end.

(** Setting a key of an object literal: an existing key keeps its place. *)
Fixpoint assoc_set {A : Type} (k : string) (v : A) (l : list (string * A))
  : list (string * A) :=
  match l with
  | [] => [(k, v)]
  | (k', v') :: rest =>
      if String.eqb k k' then (k, v) :: rest else (k', v') :: assoc_set k v rest
  end.

(** [{...a, ...b}] on string-keyed objects *)
Definition spread_into {A : Type} (a b : list (string * A)) : list (string * A) :=
  fold_left (fun acc kv => assoc_set (fst kv) (snd kv) acc) b a.

(** [v.key] for the two keys the client reads ([success], [data]); reading
    a property of [null] or [undefined] is a TypeError. *)
Definition get_prop (v : JsValue) (key : string) : JsThrown + JsValue :=
  match v with
  | JUndefined | JNull =>
      inl (ThrownError "TypeError" ("Cannot read properties of null (reading '" +:+ key +:+ "')"))
  | JObj props => inr (default JUndefined (assoc_get key props))
  | _ => inr JUndefined
  end.

(** [String.prototype.includes] *)
Fixpoint startsWith (p s : string) : bool :=
  match p, s with
  | EmptyString, _ => true
  | String _ _, EmptyString => false
  | String a p', String b s' => Ascii.eqb a b && startsWith p' s'
  end.

Fixpoint includes (s search : string) : bool :=
  startsWith search s
  || match s with
     | EmptyString => false
     | String _ s' => includes s' search
     end.

(** [a || b] on optional strings: the empty string is falsy too. *)
Definition or_string (a : option string) (b : string) : string :=
  match a with
  | Some s => if String.eqb s "" then b else s
  | None => b
  end.

(** ** URLSearchParams serialisation (application/x-www-form-urlencoded) *)

Definition hex_digit (n : N) : ascii :=
  ascii_of_N (if (n <? 10)%N then 48 + n else 55 + n)%N.

Definition form_safe (c : ascii) : bool :=
  let n := N_of_ascii c in
  ((48 <=? n) && (n <=? 57) || (65 <=? n) && (n <=? 90) || (97 <=? n) && (n <=? 122)
   || (n =? 42) || (n =? 45) || (n =? 46) || (n =? 95))%N.

Fixpoint form_encode (s : string) : string :=
  match s with
  | EmptyString => EmptyString
  | String c rest =>
      let n := N_of_ascii c in
      if form_safe c then String c (form_encode rest)
      else if (n =? 32)%N then String "+" (form_encode rest)
      else String "%" (String (hex_digit (n / 16)) (String (hex_digit (n mod 16))
                                                      (form_encode rest)))
  end.

Fixpoint params_toString (ps : list (string * string)) : string :=
  match ps with
  | [] => ""
  | [(k, v)] => form_encode k +:+ "=" +:+ form_encode v
  | (k, v) :: rest => form_encode k +:+ "=" +:+ form_encode v +:+ "&" +:+ params_toString rest
  end.

(** ** Requests *)

Inductive AbortSignal : Type :=
  | TimeoutSignal (ms : Z)        (* AbortSignal.timeout(ms) *)
  | CallerSignal (id : nat).      (* a signal the caller made *)

(** An object property that may be missing altogether, or present with a
    value (possibly [null]/[undefined], written [Own None]). *)
Inductive OwnProp (A : Type) : Type :=
  | Absent
  | Own (v : option A).
Arguments Absent {A}.
Arguments Own {A} v.

(** The caller's [options: RequestInit] (plus the untyped [skipCache]).
    [headers], [credentials] and [signal] have a value of their own in the
    [config] literal, which an own property of [options] overwrites even
    when it is [undefined]: for these three a missing property and an
    [undefined] one differ.  For the other fields they behave alike, and
    [None] stands for both. *)
Record RequestInit : Type := {
  init_method : option string;
  init_headers : OwnProp (list (string * string));
  init_signal : OwnProp AbortSignal;
  init_credentials : OwnProp string;
  init_body : option string;
  init_skipCache : option JsValue;
}.

(** [{}] *)
Definition empty_init : RequestInit :=
  {| init_method := None; init_headers := Absent; init_signal := Absent;
     init_credentials := Absent; init_body := None; init_skipCache := None |}.

(** [{ signal: s }] *)
Definition signalled_init (s : AbortSignal) : RequestInit :=
  {| init_method := None; init_headers := Absent; init_signal := Own (Some s);
     init_credentials := Absent; init_body := None; init_skipCache := None |}.

(** The [config] object handed to [fetch]. *)
Record RequestConfig : Type := {
  cfg_credentials : option string;
  cfg_headers : option (list (string * string));
  cfg_signal : option AbortSignal;
  cfg_method : option string;
  cfg_body : option string;
  cfg_skipCache : option JsValue;
}.

(** [a ?? b] *)
Definition nullish {A : Type} (a : OwnProp A) (b : A) : A :=
  match a with
  | Own (Some v) => v
  | _ => b
  end.

(** One property of [{ lit, ...options }]: an own property of [options]
    overwrites the literal's, with whatever it holds. *)
Definition overwrite_own {A : Type} (lit : option A) (own : OwnProp A) : option A :=
  match own with
  | Absent => lit
  | Own v => v
  end.

(** [...o] of a property that may be missing or [undefined]: nothing then. *)
Definition spread_of {A : Type} (o : OwnProp (list (string * A))) : list (string * A) :=
  match o with
  | Own (Some l) => l
  | _ => []
  end.

(** [{ credentials: 'include', headers: {...}, signal, ...options }], once
    the value [signal] of [options.signal ?? AbortSignal.timeout(timeoutMs)]
    is there. *)
Definition config_literal (signal : AbortSignal) (options : RequestInit) : RequestConfig :=
  let lit_credentials := Some "include" in
  let lit_headers :=
    Some (spread_into [("Content-Type", "application/json")]
                      (spread_of (init_headers options))) in
  let lit_signal := Some signal in
  {| cfg_credentials := overwrite_own lit_credentials (init_credentials options);
     cfg_headers := overwrite_own lit_headers (init_headers options);
     cfg_signal := overwrite_own lit_signal (init_signal options);
     cfg_method := init_method options;
     cfg_body := init_body options;
     cfg_skipCache := init_skipCache options |}.

(** [const config = { ... }] when [AbortSignal.timeout(timeoutMs)], if it is
    called, returns its signal. *)
Definition build_config (options : RequestInit) (timeoutMs : Z) : RequestConfig :=
  config_literal (nullish (init_signal options) (TimeoutSignal timeoutMs)) options.

(** ** The platform *)

(** What the client takes from the JavaScript platform besides [fetch].
    [AbortSignal.timeout] accepts a delay from 0 to [max_delay] and throws
    for any other: a TypeError beyond [2^53 - 1] in browsers, a RangeError
    beyond [2^32 - 1] in Node; every platform accepts an unsigned 32-bit
    delay.  A timer of [setTimeout] fires after its delay or later, by
    [timer_late] milliseconds.  Delays are integers here. *)
Record Platform : Type := {
  max_delay : Z;
  max_delay_covers : 4294967295 <= max_delay;
  refusal_name : string;
  refusal_message : Z -> string;
  timer_late : Z -> Z -> N;            (* by the time set and the delay *)
}.

(** The error [AbortSignal.timeout(ms)] throws for a delay it refuses. *)
Definition delay_refused (plat : Platform) (ms : Z) : JsThrown :=
  ThrownError (refusal_name plat) (refusal_message plat ms).

Definition timeout_accepted (plat : Platform) (ms : Z) : bool :=
  (0 <=? ms) && (ms <=? max_delay plat).

(** [AbortSignal.timeout(ms)] *)
Definition AbortSignal_timeout (plat : Platform) (ms : Z) : JsThrown + AbortSignal :=
  if timeout_accepted plat ms then inr (TimeoutSignal ms) else inl (delay_refused plat ms).

(** A browser, with timers on time. *)
Definition web_platform : Platform :=
  {| max_delay := 9007199254740991;
     max_delay_covers := ltac:(vm_compute; discriminate);
     refusal_name := "TypeError";
     refusal_message := fun _ => "Value is outside the unsigned long long value range.";
     timer_late := fun _ _ => 0%N |}.

(** Node, with timers a millisecond late. *)
Definition node_platform : Platform :=
  {| max_delay := 4294967295;
     max_delay_covers := ltac:(vm_compute; discriminate);
     refusal_name := "RangeError";
     refusal_message := fun ms => "The value of delay is out of range. Received " +:+ pretty ms;
     timer_late := fun _ _ => 1%N |}.

(** ** The world the client runs in *)

Inductive Completion (A : Type) : Type :=
  | Returned (a : A)
  | Threw (e : JsThrown).
Arguments Returned {A} a.
Arguments Threw {A} e.

Record Response : Type := {
  resp_ok : bool;
  resp_status : N;
  resp_statusText : string;
  resp_json : Completion JsValue;       (* what [await response.json()] does *)
}.

Inductive FetchOutcome : Type :=
  | Resolved (r : Response)
  | Rejected (e : JsThrown).

Record FetchReply : Type := {
  took : Z;                              (* milliseconds until the await ends *)
  outcome : FetchOutcome;
}.

Inductive Event : Type :=
  | EvCall (endpoint : string) (timeoutMs : Z)     (* entry into [api] *)
  | EvFetch (url : string) (config : RequestConfig)
  | EvWarn (msg : string)
  | EvError (msg : string) (e : JsThrown)
  | EvTimer (ms : Z).                              (* an awaited [setTimeout] *)

Record CacheEntry : Type := {
  data : JsValue;
  timestamp : Z;
}.

Record World : Type := {
  apiCache : gmap string CacheEntry;
  clock : Z;                                       (* what [Date.now()] reads *)
  trace : list Event;                              (* oldest first *)
}.

(** The backend and the wires, seen from the client: the reply to the
    [n]-th [fetch] of the session, given the request and the time. *)
Definition Network : Type := nat -> string -> RequestConfig -> Z -> FetchReply.

Definition is_fetch (ev : Event) : bool :=
  match ev with EvFetch _ _ => true | _ => false end.

Definition fetch_count (w : World) : nat := length (filter is_fetch (trace w)).

(** ** A state-and-exception monad for [async] bodies *)

Definition Js (A : Type) : Type := World -> Completion A * World.

Definition ret {A : Type} (a : A) : Js A := fun w => (Returned a, w).

Definition throw {A : Type} (e : JsThrown) : Js A := fun w => (Threw e, w).

Definition bind {A B : Type} (m : Js A) (k : A -> Js B) : Js B :=
  fun w =>
    match m w with
    | (Returned a, w') => k a w'
    | (Threw e, w') => (Threw e, w')
    end.

Definition try_catch {A : Type} (body : Js A) (handler : JsThrown -> Js A) : Js A :=
  fun w =>
    match body w with
    | (Returned a, w') => (Returned a, w')
    | (Threw e, w') => handler e w'
    end.

Notation "x <- m ;; k" := (bind m (fun x => k))
  (at level 100, m at next level, right associativity).
Notation "m ;;; k" := (bind m (fun _ => k))
  (at level 100, right associativity).

Definition emit (ev : Event) : Js unit :=
  fun w => (Returned tt,
            {| apiCache := apiCache w; clock := clock w; trace := trace w ++ [ev] |}).

Definition Date_now : Js Z := fun w => (Returned (clock w), w).

Definition cache_get (key : string) : Js (option CacheEntry) :=
  fun w => (Returned (apiCache w !! key), w).

Definition cache_set (key : string) (e : CacheEntry) : Js unit :=
  fun w => (Returned tt,
            {| apiCache := <[key := e]> (apiCache w); clock := clock w; trace := trace w |}).

Definition advance (ms : Z) : Js unit :=
  fun w => (Returned tt,
            {| apiCache := apiCache w; clock := clock w + ms; trace := trace w |}).

(** [await new Promise((res) => setTimeout(res, ms))]: the timer is set and
    the clock has moved on by [ms] or more when the wait ends. *)
Definition sleep (plat : Platform) (ms : Z) : Js unit :=
  emit (EvTimer ms) ;;;
  now <- Date_now ;;
  advance (ms + Z.of_N (timer_late plat now ms)).

Definition lift_prop (r : JsThrown + JsValue) : Js JsValue :=
  match r with
  | inl e => throw e
  | inr v => ret v
  end.

Definition lift_completion {A : Type} (c : Completion A) : Js A :=
  match c with
  | Returned a => ret a
  | Threw e => throw e
  end.

Definition CACHE_TTL : Z := 5000.

Definition defaultStats : JsValue :=
  JObj [("total_buildings", JNum 0); ("total_rooms", JNum 0); ("total_cctvs", JNum 0)].

Definition emptyStream : JsValue := JObj [("stream_url", JStr "")].

Definition timeout_message : string :=
  "API request timeout: The backend is taking too long to respond. Please ensure the Octane server is running.".

Section Client.

(** The platform, [process.env.NEXT_PUBLIC_API_URL] and the network are
    fixed for a session. *)
Variable platform : Platform.
Variable NEXT_PUBLIC_API_URL : option string.
Variable network : Network.

Definition API_BASE_URL : string :=
  or_string NEXT_PUBLIC_API_URL "http://127.0.0.1:8000/api".

(** [await fetch(url, config)] *)
Definition fetch (url : string) (config : RequestConfig) : Js Response :=
  fun w =>
    let reply := network (fetch_count w) url config (clock w) in
    let w1 := {| apiCache := apiCache w; clock := clock w + took reply;
                 trace := trace w ++ [EvFetch url config] |} in
    match outcome reply with
    | Resolved r => (Returned r, w1)
    | Rejected e => (Threw e, w1)
    end.

Definition request_method (options : RequestInit) : string :=
  or_string (init_method options) "GET".

Definition request_url (endpoint : string) : string := API_BASE_URL +:+ endpoint.

Definition cache_key (endpoint : string) (options : RequestInit) : string :=
  request_method options +:+ ":" +:+ request_url endpoint.

Definition is_get (options : RequestInit) : bool :=
  String.eqb (request_method options) "GET".

(** [(options as any).skipCache || false], used as a condition *)
Definition skip_cache (options : RequestInit) : bool :=
  match init_skipCache options with
  | Some v => truthy v
  | None => false
  end.

(** The cache check at the top of [api]: [Some d] when the call returns
    [d] at once. *)
Definition cache_check (endpoint : string) (options : RequestInit) : Js (option JsValue) :=
  if is_get options && negb (skip_cache options) then
    cached <- cache_get (cache_key endpoint options) ;;
    match cached with
    | Some c =>
        now <- Date_now ;;
        if now - timestamp c <? CACHE_TTL then ret (Some (data c)) else ret None
    | None => ret None
    end
  else ret None.

(** [options.signal ?? AbortSignal.timeout(timeoutMs)]: the timeout signal
    is only asked for when the caller brings none. *)
Definition signal_or_timeout (options : RequestInit) (timeoutMs : Z) : Js AbortSignal :=
  match init_signal options with
  | Own (Some s) => ret s
  | _ =>
      match AbortSignal_timeout platform timeoutMs with
      | inl e => throw e
      | inr s => ret s
      end
  end.

(** [const config: RequestInit = { ... }], evaluated before the [try]. *)
Definition make_config (options : RequestInit) (timeoutMs : Z) : Js RequestConfig :=
  signal <- signal_or_timeout options timeoutMs ;;
  ret (config_literal signal options).

(** The body of the [try] block. *)
Definition send_request (endpoint : string) (options : RequestInit)
    (config : RequestConfig) : Js JsValue :=
  response <- fetch (request_url endpoint) config ;;
  (if negb (resp_ok response) then
     throw (new_Error ("API request failed: " +:+ pretty (resp_status response)
                       +:+ " " +:+ resp_statusText response))
   else ret tt) ;;;
  result <- lift_completion (resp_json response) ;;
  (if is_get options then
     success <- lift_prop (get_prop result "success") ;;
     if truthy success then
       d <- lift_prop (get_prop result "data") ;;
       now <- Date_now ;;
       cache_set (cache_key endpoint options) {| data := d; timestamp := now |}
     else ret tt
   else ret tt) ;;;
  lift_prop (get_prop result "data").

(** The [try] block with the [config] of a [timeoutMs] that was accepted. *)
Definition try_request (endpoint : string) (options : RequestInit) (timeoutMs : Z)
  : Js JsValue :=
  send_request endpoint options (build_config options timeoutMs).

(** The [catch] block. *)
Definition on_request_error (endpoint : string) (options : RequestInit)
    (error : JsThrown) : Js JsValue :=
  stale <- (if is_get options then cache_get (cache_key endpoint options) else ret None) ;;
  match stale with
  | Some c =>
      emit (EvWarn "API request failed, returning stale cache data") ;;;
      ret (data c)
  | None =>
      emit (EvError "API request error:" error) ;;;
      match error with
      | ThrownError name message =>
          if String.eqb name "AbortError" || includes message "timeout"
          then throw (new_Error timeout_message)
          else throw error
      | ThrownOther _ => throw (new_Error "Unknown API request error")
      end
  end.

(** [api<T>(endpoint, options = {}, timeoutMs = 30000)] *)
Definition api (endpoint : string) (options : option RequestInit)
    (timeoutMs : option Z) : Js JsValue :=
  let options := default empty_init options in
  let timeoutMs := default 30000 timeoutMs in
  emit (EvCall endpoint timeoutMs) ;;;
  hit <- cache_check endpoint options ;;
  match hit with
  | Some d => ret d
  | None =>
      config <- make_config options timeoutMs ;;
      try_catch (send_request endpoint options config)
                (on_request_error endpoint options)
  end.

(** ** The typed getters *)

Definition getDashboardBundle : Js JsValue :=
  try_catch (response <- api "/dashboard-bundle" None None ;; ret response)
    (fun error =>
       emit (EvError "Error fetching dashboard bundle:" error) ;;;
       throw error).

Definition getStats : Js JsValue :=
  try_catch (response <- api "/stats" None None ;; ret response)
    (fun error =>
       emit (EvError "Error fetching stats:" error) ;;;
       ret defaultStats).

Definition getBuildings : Js JsValue :=
  try_catch (response <- api "/buildings" None None ;; ret response)
    (fun error =>
       emit (EvError "Error fetching buildings:" error) ;;;
       ret (JArr [])).

Definition getBuilding (id : string) : Js JsValue :=
  try_catch (response <- api ("/buildings/" +:+ id) None None ;; ret response)
    (fun error =>
       emit (EvError ("Error fetching building " +:+ id +:+ ":") error) ;;;
       ret (JObj [])).

Definition getRooms : Js JsValue :=
  try_catch (response <- api "/rooms" None None ;; ret response)
    (fun error =>
       emit (EvError "Error fetching rooms:" error) ;;;
       ret (JArr [])).

Definition getRoom (id : string) : Js JsValue :=
  try_catch (response <- api ("/rooms/" +:+ id) None None ;; ret response)
    (fun error =>
       emit (EvError ("Error fetching room " +:+ id +:+ ":") error) ;;;
       ret (JObj [])).

Definition getRoomsByBuilding (buildingId : string) : Js JsValue :=
  try_catch (response <- api ("/rooms/building/" +:+ buildingId) None None ;; ret response)
    (fun error =>
       emit (EvError ("Error fetching rooms for building " +:+ buildingId +:+ ":") error) ;;;
       ret (JArr [])).

Definition getCctvs : Js JsValue :=
  try_catch (response <- api "/cctvs" None None ;; ret response)
    (fun error =>
       emit (EvError "Error fetching CCTVs:" error) ;;;
       ret (JArr [])).

Definition getCctvsByRoom (roomId : string) : Js JsValue :=
  try_catch (response <- api ("/cctvs/room/" +:+ roomId) None None ;; ret response)
    (fun error =>
       emit (EvError ("Error fetching CCTVs for room " +:+ roomId +:+ ":") error) ;;;
       ret (JArr [])).

(** *** getCctvStreamUrl *)

(** [const attempts = [12000, 15000, 20000]] *)
Definition attempts : list Z := [12000; 15000; 20000].

Definition stream_endpoint (cctvId : string) : string := "/cctvs/stream/" +:+ cctvId.

(** One turn of the [for] loop: [Some response] when the turn returns
    from the function, [None] when the loop goes on. *)
Definition stream_attempt (i : nat) (cctvId : string) : Js (option JsValue) :=
  try_catch
    (response <- api (stream_endpoint cctvId) (Some empty_init) (attempts !! i) ;;
     ret (Some response))
    (fun error =>
       (if Nat.eqb i (length attempts - 1)%nat then
          emit (EvError ("Error fetching stream URL for CCTV " +:+ cctvId +:+ ":") error)
        else sleep platform 750) ;;;
       ret None).

(** [for (let i = ...; i < attempts.length; i++)], with [remaining] turns
    left; falling out of the loop returns the empty object. *)
Fixpoint stream_loop (remaining : nat) (i : nat) (cctvId : string) : Js JsValue :=
  match remaining with
  | O => ret emptyStream
  | S remaining' =>
      r <- stream_attempt i cctvId ;;
      match r with
      | Some response => ret response
      | None => stream_loop remaining' (S i) cctvId
      end
  end.

Definition getCctvStreamUrl (cctvId : string) : Js JsValue :=
  stream_loop (length attempts) 0%nat cctvId.

(** *** Date-filtered getters *)

Definition truthy_string (s : option string) : bool :=
  match s with
  | Some s => negb (String.eqb s "")
  | None => false
  end.

(** The [URLSearchParams] after the two conditional [append]s. *)
Definition date_params (startDate endDate : option string) : list (string * string) :=
  (if truthy_string startDate then [("start_date", default "" startDate)] else [])
  ++ (if truthy_string endDate then [("end_date", default "" endDate)] else []).

Definition with_query (path : string) (startDate endDate : option string) : string :=
  let q := params_toString (date_params startDate endDate) in
  if String.eqb q "" then path else path +:+ "?" +:+ q.

Definition getProductionTrends (startDate endDate : option string) : Js JsValue :=
  try_catch
    (response <- api (with_query "/production-trends" startDate endDate) None None ;;
     ret response)
    (fun error =>
       emit (EvError "Error fetching production trends:" error) ;;;
       ret (JArr [])).

Definition getUnitPerformance (startDate endDate : option string) : Js JsValue :=
  try_catch
    (response <- api (with_query "/unit-performance" startDate endDate) None None ;;
     ret response)
    (fun error =>
       emit (EvError "Error fetching unit performance:" error) ;;;
       ret (JArr [])).

Definition getContacts : Js JsValue :=
  try_catch
    (response <- api "/contact" None None ;;
     ret (if truthy response then JArr [response] else JArr []))
    (fun error =>
       emit (EvError "Error fetching contacts:" error) ;;;
       ret (JArr [])).

End Client.

(** ** Observations on a run *)

(** The events a run added to the trace. *)
Definition events_since (w w' : World) : list Event :=
  drop (length (trace w)) (trace w').

(** The calls into [api] and the timers among some events, in order. *)
Inductive Step : Type :=
  | Attempt (timeoutMs : Z)
  | Delay (ms : Z).

Fixpoint schedule (evs : list Event) : list Step :=
  match evs with
  | [] => []
  | EvCall _ t :: rest => Attempt t :: schedule rest
  | EvTimer ms :: rest => Delay ms :: schedule rest
  | _ :: rest => schedule rest
  end.

Definition fetches (evs : list Event) : list Event := filter is_fetch evs.

(** The world once [ev] is on the trace. *)
Definition logged (ev : Event) (w : World) : World := snd (emit ev w).

(** The world [ms] milliseconds later, nothing else having happened. *)
Definition later (ms : Z) (w : World) : World := snd (advance ms w).

(** A computation that returns in every world. *)
Definition never_throws {A : Type} (m : Js A) : Prop :=
  forall w, exists v, fst (m w) = Returned v.

(** The text of the console error after the last attempt. *)
Definition stream_error_label (cctvId : string) : string :=
  "Error fetching stream URL for CCTV " +:+ cctvId +:+ ":".

(** The world after an awaited [setTimeout] of [ms]. *)
Definition paused (plat : Platform) (ms : Z) (w : World) : World :=
  snd (sleep plat ms w).

(** The [timeoutMs] of the calls into [api] among some events, in order. *)
Fixpoint attempt_timeouts (evs : list Event) : list Z :=
  match evs with
  | [] => []
  | EvCall _ t :: rest => t :: attempt_timeouts rest
  | _ :: rest => attempt_timeouts rest
  end.

(** A successful result: an ok response whose body carries a truthy
    [success]; [Some d] gives its [data]. *)
Definition reply_success (reply : FetchReply) : option JsValue :=
  match outcome reply with
  | Resolved r =>
      if resp_ok r then
        match resp_json r with
        | Returned result =>
            match get_prop result "success", get_prop result "data" with
            | inr sv, inr d => if truthy sv then Some d else None
            | _, _ => None
            end
        | Threw _ => None
        end
      else None
  | Rejected _ => None
  end.

(** The test of the [catch] block for a timeout. *)
Definition names_timeout (e : JsThrown) : bool :=
  match e with
  | ThrownError name message => String.eqb name "AbortError" || includes message "timeout"
  | ThrownOther _ => false
  end.

(** A fresh page: nothing cached, nothing logged. *)
Definition fresh_world (now : Z) : World :=
  {| apiCache := ∅; clock := now; trace := [] |}.

(** *** Sample backends *)

Definition json_reply (ms : Z) (body : JsValue) : FetchReply :=
  {| took := ms;
     outcome := Resolved {| resp_ok := true; resp_status := 200; resp_statusText := "OK";
                            resp_json := Returned body |} |}.

Definition status_reply (ms : Z) (status : N) (text : string) : FetchReply :=
  {| took := ms;
     outcome := Resolved {| resp_ok := false; resp_status := status; resp_statusText := text;
                            resp_json := Returned JNull |} |}.

Definition abort_reply (ms : Z) : FetchReply :=
  {| took := ms;
     outcome := Rejected (ThrownError "AbortError" "The operation was aborted.") |}.

Definition envelope (d : JsValue) : JsValue :=
  JObj [("success", JBool true); ("message", JStr "ok"); ("data", d)].

(** Every request is answered 404: the id is not in the registry. *)
Definition net_unknown : Network := fun _ _ _ _ => status_reply 40 404 "Not Found".

(** Every request is answered 503: the worker could not be started. *)
Definition net_unavailable : Network :=
  fun _ _ _ _ => status_reply 40 503 "Service Unavailable".

(** No request is answered before its signal fires. *)
Definition net_silent : Network :=
  fun _ _ cfg _ =>
    abort_reply (match cfg_signal cfg with Some (TimeoutSignal ms) => ms | _ => 30000 end).

(** The stream comes up while the second request waits. *)
Definition net_warming : Network :=
  fun n _ _ _ =>
    match n with
    | O => abort_reply 12000
    | _ => json_reply 900 (envelope (JObj [("stream_url", JStr "/live/7/index.m3u8")]))
    end.

(** The first request is answered with [d]; no later one is answered before
    its signal fires. *)
Definition net_then_silent (d : JsValue) : Network :=
  fun n url cfg now =>
    match n with
    | O => json_reply 35 (envelope d)
    | _ => net_silent n url cfg now
    end.

(** [{ method: m }] *)
Definition method_init (m : string) : RequestInit :=
  {| init_method := Some m; init_headers := Absent; init_signal := Absent;
     init_credentials := Absent; init_body := None; init_skipCache := None |}.

Definition net_ok (d : JsValue) : Network := fun _ _ _ _ => json_reply 35 (envelope d).

(** * The stream engine behind the playback API

    The engine runs in [streaming-server/], outside the client sources; the
    two components below follow the engine's written contract. *)

(** ** Transcode Worker Supervisor *)

(** Modelled from the spec: the failures the playback API tells apart
    (section 7), which the engine of [streaming-server/] reports. *)
Inductive EngineError : Type :=
  | SourceUnknown
  | SourceUnavailable
  | Timeout.

(** Modelled from the spec: a worker of the supervisor in
    [streaming-server/] (section 3). *)
Record Worker : Type := {
  source_id : string;
  handle : nat;                 (* the process the worker owns *)
  started_at : Z;
  restart_count : nat;
}.

(** Modelled from the spec: the supervisor of [streaming-server/], which is
    not among the sources.  It owns the workers, looked up by source id;
    [processes] is the operating system's table of live transcoding
    processes and the source each one transcodes; [spawn_log] records every
    process creation, oldest first. *)
Record Supervisor : Type := {
  registry : gset string;
  workers : gmap string Worker;
  processes : gmap nat string;
  next_handle : nat;
  spawn_log : list (nat * string);
}.

(** Modelled from the spec: the supervisor of [streaming-server/] at start,
    with the registry's sources and no worker. *)
Definition supervisor_init (sources : gset string) : Supervisor :=
  {| registry := sources; workers := ∅; processes := ∅; next_handle := 0;
     spawn_log := [] |}.

(** Modelled from the spec: [ensure_worker(source_id) -> WorkerHandle | Error]
    (section 4.1).  A live worker for the source is returned as it is;
    otherwise one external process is spawned, which the environment lets
    succeed or not ([spawn_ok]).  Calls for one source are serialised
    (section 5), so a call is one atomic step. *)
Definition ensure_worker (sid : string) (now : Z) (spawn_ok : bool) (s : Supervisor)
  : (EngineError + nat) * Supervisor :=
  if decide (sid ∈ registry s) then
    match workers s !! sid with
    | Some w => (inr (handle w), s)
    | None =>
        if spawn_ok then
          let pid := next_handle s in
          let w := {| source_id := sid; handle := pid; started_at := now;
                      restart_count := 0 |} in
          (inr pid,
           {| registry := registry s;
              workers := <[sid := w]> (workers s);
              processes := <[pid := sid]> (processes s);
              next_handle := S pid;
              spawn_log := spawn_log s ++ [(pid, sid)] |})
        else (inl SourceUnavailable, s)
    end
  else (inl SourceUnknown, s).

(** Modelled from the spec: [stop_worker(source_id)] terminates the worker's
    process on every path and forgets the worker. *)
Definition stop_worker (sid : string) (s : Supervisor) : Supervisor :=
  match workers s !! sid with
  | Some w =>
      {| registry := registry s;
         workers := delete sid (workers s);
         processes := delete (handle w) (processes s);
         next_handle := next_handle s;
         spawn_log := spawn_log s |}
  | None => s
  end.

(** Modelled from the spec: a process exit (clean or not) takes its worker
    out of existence.  An automatic respawn within the restart budget is a
    later [ensure_worker] of the supervisor's own. *)
Definition on_process_exit (pid : nat) (s : Supervisor) : Supervisor :=
  match processes s !! pid with
  | Some sid =>
      {| registry := registry s;
         workers := delete sid (workers s);
         processes := delete pid (processes s);
         next_handle := next_handle s;
         spawn_log := spawn_log s |}
  | None => s
  end.

(** Modelled from the spec: [on_registry_change(added, removed)]; a removal
    stops the source's worker. *)
Definition on_registry_change (added removed : list string) (s : Supervisor) : Supervisor :=
  let s' := fold_left (fun acc sid => stop_worker sid acc) removed s in
  {| registry := (registry s' ∪ list_to_set added) ∖ list_to_set removed;
     workers := workers s';
     processes := processes s';
     next_handle := next_handle s';
     spawn_log := spawn_log s' |}.

(** Modelled from the spec: what can happen to the supervisor of
    [streaming-server/], one atomic step each. *)
Inductive SupervisorOp : Type :=
  | OpEnsure (sid : string) (now : Z) (spawn_ok : bool)
  | OpStop (sid : string)
  | OpExit (pid : nat)
  | OpRegistry (added removed : list string).

(** Modelled from the spec: one step of the supervisor of
    [streaming-server/]. *)
Definition supervisor_step (s : Supervisor) (op : SupervisorOp) : Supervisor :=
  match op with
  | OpEnsure sid now ok => snd (ensure_worker sid now ok s)
  | OpStop sid => stop_worker sid s
  | OpExit pid => on_process_exit pid s
  | OpRegistry added removed => on_registry_change added removed s
  end.

(** Modelled from the spec: a run of the supervisor of [streaming-server/],
    any interleaving of the serialised operations. *)
Definition supervisor_run (ops : list SupervisorOp) (s : Supervisor) : Supervisor :=
  fold_left supervisor_step ops s.

(** Modelled from the spec: a storm of [ensure_worker] calls for one source
    on the supervisor of [streaming-server/] (section 8): the answers, in
    call order, and the state they leave. *)
Fixpoint ensure_storm (sid : string) (calls : list (Z * bool)) (s : Supervisor)
  : list (EngineError + nat) * Supervisor :=
  match calls with
  | [] => ([], s)
  | (now, ok) :: rest =>
      let '(r, s1) := ensure_worker sid now ok s in
      let '(rs, s2) := ensure_storm sid rest s1 in
      (r :: rs, s2)
  end.

(** The processes created between two states. *)
Definition spawned_since (s s' : Supervisor) : list (nat * string) :=
  drop (length (spawn_log s)) (spawn_log s').

(** Every live process is the one its source's worker holds. *)
Definition supervisor_inv (s : Supervisor) : Prop :=
  forall pid sid, processes s !! pid = Some sid ->
    exists w, workers s !! sid = Some w /\ handle w = pid.

(** ** Segment Store *)

(** Modelled from the spec: one source's area of the segment store of
    [streaming-server/] (sections 3 and 4.4).  [manifest] lists the
    sequence numbers it references, oldest first; [chunks] are the segment
    files in storage; [unpublished] are written segments the manifest does
    not list yet; [aged] are segments a manifest rewrite dropped and whose
    files wait to be deleted; [deleted] remembers every file ever
    deleted. *)
Record Area : Type := {
  manifest : list nat;
  chunks : gset nat;
  unpublished : list nat;
  aged : list nat;
  deleted : gset nat;
  next_seq : nat;
}.

Definition empty_area : Area :=
  {| manifest := []; chunks := ∅; unpublished := []; aged := []; deleted := ∅;
     next_seq := 0 |}.

(** Modelled from the spec: the worker of [streaming-server/] writes the
    next segment file, under the next sequence number. *)
Definition write_chunk (a : Area) : Area :=
  {| manifest := manifest a;
     chunks := chunks a ∪ {[ next_seq a ]};
     unpublished := unpublished a ++ [next_seq a];
     aged := aged a;
     deleted := deleted a;
     next_seq := S (next_seq a) |}.

(** Modelled from the spec: the manifest rewrite of [streaming-server/]
    (section 4.4): the newest segments enter, the oldest leave the sliding
    window of [window] entries and become aged. *)
Definition rewrite_manifest (window : nat) (a : Area) : Area :=
  let listed := (manifest a ++ unpublished a)%list in
  let excess := (length listed - window)%nat in
  {| manifest := drop excess listed;
     chunks := chunks a;
     unpublished := [];
     aged := aged a ++ take excess listed;
     deleted := deleted a;
     next_seq := next_seq a |}.

(** Modelled from the spec: the deferred deletion of [streaming-server/]
    (section 4.4): the files of the aged segments are deleted. *)
Definition delete_aged (a : Area) : Area :=
  {| manifest := manifest a;
     chunks := chunks a ∖ list_to_set (aged a);
     unpublished := unpublished a;
     aged := [];
     deleted := deleted a ∪ list_to_set (aged a);
     next_seq := next_seq a |}.

(** Modelled from the spec: the purge of [streaming-server/] on worker stop,
    first half: the manifest goes, and every file of the area is left to
    the deletion that follows, in the order section 3 asks of every
    deletion. *)
Definition purge_manifest (a : Area) : Area :=
  {| manifest := [];
     chunks := chunks a;
     unpublished := [];
     aged := elements (chunks a);
     deleted := deleted a;
     next_seq := next_seq a |}.

(** Modelled from the spec: the file operations of [streaming-server/] on
    one area, one atomic step each. *)
Inductive AreaOp : Type :=
  | WriteChunk
  | RewriteManifest
  | DeleteAged
  | PurgeManifest.

(** Modelled from the spec: one file operation of [streaming-server/] on an
    area. *)
Definition area_step (window : nat) (a : Area) (op : AreaOp) : Area :=
  match op with
  | WriteChunk => write_chunk a
  | RewriteManifest => rewrite_manifest window a
  | DeleteAged => delete_aged a
  | PurgeManifest => purge_manifest a
  end.

(** Modelled from the spec: the segment store of [streaming-server/], an
    area per source that ever wrote; a step names the source it is for. *)
Definition store_step (window : nat) (st : gmap string Area) (op : string * AreaOp)
  : gmap string Area :=
  <[ fst op := area_step window (default empty_area (st !! fst op)) (snd op) ]> st.

(** Modelled from the spec: a run of the segment store of
    [streaming-server/] from empty storage, any interleaving of steps. *)
Definition store_run (window : nat) (ops : list (string * AreaOp)) : gmap string Area :=
  fold_left (store_step window) ops ∅.

(** Modelled from the spec: adding one segment in [streaming-server/], the
    way section 4.4 orders it. *)
Definition add_segment (sid : string) : list (string * AreaOp) :=
  [(sid, WriteChunk); (sid, RewriteManifest); (sid, DeleteAged)].

(** What the store keeps true of an area: listed segments are on disk and
    listed once, aged ones are no longer listed, deleted files are gone,
    and sequence numbers only grow. *)
Record area_inv (a : Area) : Prop := {
  inv_listed_stored : forall n, n ∈ (manifest a ++ unpublished a)%list -> n ∈ chunks a;
  inv_listed_once : NoDup (manifest a ++ unpublished a)%list;
  inv_aged_unlisted : forall n, n ∈ aged a -> n ∉ (manifest a ++ unpublished a)%list;
  inv_aged_old : forall n, n ∈ aged a -> (n < next_seq a)%nat;
  inv_chunks_old : forall n, n ∈ chunks a -> (n < next_seq a)%nat;
  inv_deleted_gone : forall n, n ∈ deleted a -> n ∉ chunks a;
  inv_deleted_old : forall n, n ∈ deleted a -> (n < next_seq a)%nat;
}.

(** * More of the client *)

(** The condition under which [api] answers from the cache at once: a GET
    without [skipCache] whose entry is younger than [CACHE_TTL]. *)
Definition fresh_hit (env : option string) (ep : string) (o : RequestInit) (w : World)
  : bool :=
  is_get o && negb (skip_cache o)
  && match apiCache w !! cache_key env ep o with
     | Some c => clock w - timestamp c <? CACHE_TTL
     | None => false
     end.

(** What the [catch] block of [api] throws for the error it caught, when it
    has no cached data to return. *)
Definition rethrown (error : JsThrown) : JsThrown :=
  match error with
  | ThrownError name message =>
      if String.eqb name "AbortError" || includes message "timeout"
      then new_Error timeout_message
      else error
  | ThrownOther _ => new_Error "Unknown API request error"
  end.

(** The message of the error [api] makes of a response that is not ok. *)
Definition http_error_message (r : Response) : string :=
  "API request failed: " +:+ pretty (resp_status r) +:+ " " +:+ resp_statusText r.

(** A page session as the cache sees it: calls of [api] and time passing
    in between. *)
Inductive SessionStep : Type :=
  | Call (endpoint : string) (options : option RequestInit) (timeoutMs : option Z)
  | Wait (ms : Z).

Definition session_step (plat : Platform) (env : option string) (net : Network)
    (w : World) (st : SessionStep) : World :=
  match st with
  | Call ep options t => snd (api plat env net ep options t w)
  | Wait ms => later ms w
  end.

Definition session (plat : Platform) (env : option string) (net : Network)
    (steps : list SessionStep) (w : World) : World :=
  fold_left (session_step plat env net) steps w.

(** Whether the [config] literal of a call gets built: the caller brings a
    signal, or [AbortSignal.timeout] accepts the call's [timeoutMs]. *)
Definition config_built (plat : Platform) (o : RequestInit) (tm : Z) : bool :=
  match init_signal o with
  | Own (Some _) => true
  | _ => timeout_accepted plat tm
  end.

(** A backend whose connection fails with a thrown value that is no
    [Error]. *)
Definition net_throws_value (v : JsValue) : Network :=
  fun _ _ _ _ => {| took := 5; outcome := Rejected (ThrownOther v) |}.

(** The request of the attempt with timeout [t] for the stream of
    [cctvId]. *)
Definition stream_request (env : option string) (cctvId : string) (t : Z) : Event :=
  EvFetch (request_url env (stream_endpoint cctvId)) (build_config empty_init t).

(** The encoding of one character, in front of what follows. *)
Definition form_encode_char (c : ascii) (rest : string) : string :=
  if form_safe c then String c rest
  else if (N_of_ascii c =? 32)%N then String "+" rest
  else String "%" (String (hex_digit (N_of_ascii c / 16))
                     (String (hex_digit (N_of_ascii c mod 16)) rest)).

(** What follows a value in a query string: nothing, or the separator. *)
Definition at_separator (r : string) : Prop :=
  r = "" \/ exists r', r = String "&" r'.

(** The query part [with_query] appends to the path. *)
Definition query_suffix (startDate endDate : option string) : string :=
  let q := params_toString (date_params startDate endDate) in
  if String.eqb q "" then "" else "?" +:+ q.

(** * The dashboard page (app/page.tsx) *)

(** The React state of [Home] that [loadData] writes. *)
Record PageState : Type := {
  stats : JsValue;
  productionTrends : JsValue;
  unitPerformance : JsValue;
  loading : bool;
  chartLoading : bool;
}.

(** The [useState] initial values. *)
Definition initial_page : PageState :=
  {| stats := defaultStats; productionTrends := JArr []; unitPerformance := JArr [];
     loading := true; chartLoading := true |}.

(** [setLoading(b); setChartLoading(b)] *)
Definition set_loading (b : bool) (p : PageState) : PageState :=
  {| stats := stats p; productionTrends := productionTrends p;
     unitPerformance := unitPerformance p; loading := b; chartLoading := b |}.

(** The [try] block of [loadData]: fetch the bundle, destructure it, read
    the three totals, then set the three pieces of state. *)
Definition load_bundle (plat : Platform) (env : option string) (net : Network)
    (p : PageState) : Js PageState :=
  bundle <- getDashboardBundle plat env net ;;
  statsData <- lift_prop (get_prop bundle "stats") ;;
  productionData <- lift_prop (get_prop bundle "production_trends") ;;
  unitPerformanceData <- lift_prop (get_prop bundle "unit_performance") ;;
  buildingData <- lift_prop (get_prop bundle "buildings") ;;
  total_buildings <- lift_prop (get_prop statsData "total_buildings") ;;
  total_rooms <- lift_prop (get_prop statsData "total_rooms") ;;
  total_cctvs <- lift_prop (get_prop statsData "total_cctvs") ;;
  ret {| stats := JObj [("total_buildings", total_buildings);
                        ("total_rooms", total_rooms);
                        ("total_cctvs", total_cctvs)];
         productionTrends := productionData;
         unitPerformance := unitPerformanceData;
         loading := loading p; chartLoading := chartLoading p |}.

(** [loadData(skipLoading = false)] *)
Definition loadData (plat : Platform) (env : option string) (net : Network)
    (skipLoading : option bool) (p : PageState) : Js PageState :=
  let skipLoading := default false skipLoading in
  let p1 := if negb skipLoading then set_loading true p else p in
  p2 <- try_catch (load_bundle plat env net p1)
          (fun error =>
             emit (EvError "Failed to load dashboard data:" error) ;;;
             ret p1) ;;
  ret (if negb skipLoading then set_loading false p2 else p2).

(** [handleRefresh] *)
Definition handleRefresh (plat : Platform) (env : option string) (net : Network)
    (p : PageState) : Js PageState :=
  loadData plat env net None p.

(** The three pieces of data on the page. *)
Definition page_data (p : PageState) : JsValue * JsValue * JsValue :=
  (stats p, productionTrends p, unitPerformance p).

(** A bundle as the backend sends it. *)
Definition sample_bundle : JsValue :=
  JObj [("stats", JObj [("total_buildings", JNum 4); ("total_rooms", JNum 9);
                        ("total_cctvs", JNum 21)]);
        ("production_trends", JArr [JObj [("label", JStr "Mon")]]);
        ("unit_performance", JArr []);
        ("buildings", JArr []);
        ("contacts", JArr [])].

(** * Proofs: the API client *)

(** ** Sample runs *)

Example config_of_empty_options :
  build_config empty_init 12000
  = {| cfg_credentials := Some "include";
       cfg_headers := Some [("Content-Type", "application/json")];
       cfg_signal := Some (TimeoutSignal 12000);
       cfg_method := None; cfg_body := None; cfg_skipCache := None |}.
Proof. reflexivity. Qed.

(** [{ signal: null }]: the spread puts the [null] back over the fallback. *)
Example config_of_null_signal :
  cfg_signal (build_config
                {| init_method := None; init_headers := Absent; init_signal := Own None;
                   init_credentials := Absent; init_body := None; init_skipCache := None |}
                5000)
  = None.
Proof. reflexivity. Qed.

(** Headers of the caller replace the merged ones. *)
Example config_of_caller_headers :
  cfg_headers (build_config
                 {| init_method := None; init_headers := Own (Some [("Accept", "text/plain")]);
                    init_signal := Absent; init_credentials := Absent; init_body := None;
                    init_skipCache := None |}
                 5000)
  = Some [("Accept", "text/plain")].
Proof. reflexivity. Qed.

(** [{ headers: undefined, credentials: undefined }]: own properties, so
    the spread puts [undefined] over both defaults. *)
Example config_of_undefined_headers :
  let config :=
    build_config {| init_method := None; init_headers := Own None; init_signal := Absent;
                    init_credentials := Own None; init_body := None;
                    init_skipCache := None |}
                 5000 in
  cfg_headers config = None /\ cfg_credentials config = None
  /\ cfg_signal config = Some (TimeoutSignal 5000).
Proof. repeat split; reflexivity. Qed.

(** A [timeoutMs] that [AbortSignal.timeout] refuses: the call throws while
    it builds its [config], before the [try].  Nothing is sent, nothing is
    logged, and the entry a minute old is not used. *)
Example api_refused_timeout :
  let w1 := later 60000 (snd (api node_platform None (net_ok (JNum 3)) "/stats" None None
                                (fresh_world 0))) in
  let run := api node_platform None (net_ok (JNum 3)) "/stats" None (Some (-5)) w1 in
  is_Some (apiCache w1 !! "GET:http://127.0.0.1:8000/api/stats")
  /\ fst run = Threw (ThrownError "RangeError"
                        "The value of delay is out of range. Received -5")
  /\ events_since w1 (snd run) = [EvCall "/stats" (-5)].
Proof. vm_compute. repeat split; eauto. Qed.

(** With the caller's own signal no timeout signal is asked for. *)
Example api_signal_skips_timeout :
  fst (api node_platform None (net_ok (JNum 3)) "/stats"
         (Some (signalled_init (CallerSignal 1))) (Some (-5)) (fresh_world 0))
  = Returned (JNum 3).
Proof. vm_compute. reflexivity. Qed.

(** A timer that fires a millisecond late. *)
Example pause_runs_late :
  clock (paused node_platform 750 (fresh_world 100)) = 851
  /\ clock (paused web_platform 750 (fresh_world 100)) = 850.
Proof. split; reflexivity. Qed.

Example query_is_form_encoded :
  with_query "/production-trends" (Some "2024-01-01 10:00") (Some "a&b")
  = "/production-trends?start_date=2024-01-01+10%3A00&end_date=a%26b".
Proof. reflexivity. Qed.

Example query_is_left_out :
  with_query "/unit-performance" None (Some "") = "/unit-performance".
Proof. reflexivity. Qed.

Example includes_finds_timeout :
  includes "The operation was aborted due to timeout" "timeout" = true
  /\ includes "504 Gateway Timeout" "timeout" = false.
Proof. split; reflexivity. Qed.

(** The stream comes up during the second attempt. *)
Example stream_warming_run :
  let run := getCctvStreamUrl web_platform None net_warming "7" (fresh_world 0) in
  fst run = Returned (JObj [("stream_url", JStr "/live/7/index.m3u8")])
  /\ schedule (trace (snd run)) = [Attempt 12000; Delay 750; Attempt 15000]
  /\ clock (snd run) = 13650
  /\ apiCache (snd run) !! "GET:http://127.0.0.1:8000/api/cctvs/stream/7"
     = Some {| data := JObj [("stream_url", JStr "/live/7/index.m3u8")];
               timestamp := 13650 |}.
Proof. vm_compute. repeat split; reflexivity. Qed.

Lemma events_since_app (w w' : World) (evs : list Event) :
  trace w' = (trace w ++ evs)%list -> events_since w w' = evs.
Proof.
  intros H. unfold events_since. rewrite H. apply drop_app_length.
Qed.

Ltac js_unfold :=
  unfold bind, ret, throw, try_catch, emit, Date_now, cache_get, cache_set, advance,
    sleep, lift_prop, lift_completion, fetch in *.

Ltac js_case :=
  match goal with
  | |- context [match ?x with _ => _ end] =>
      lazymatch x with
      | context [match _ with _ => _ end] => fail
      | _ => destruct x eqn:?; simpl
      end
  end.

(** The [try]/[catch] of [api]: one [fetch], then console output only. *)
Lemma request_trace env net ep o tm w :
  exists rest,
    trace (snd (try_catch (try_request env net ep o tm) (on_request_error env ep o) w))
    = (trace w ++ EvFetch (request_url env ep) (build_config o tm) :: rest)%list
    /\ fetches rest = [] /\ schedule rest = [].
Proof.
  unfold try_request, send_request, on_request_error. js_unfold. simpl.
  repeat js_case;
    repeat rewrite <- app_assoc; simpl;
    eexists; (split; [reflexivity | split; reflexivity]).
Qed.

Lemma fetch_count_logged_call ep t w :
  fetch_count (logged (EvCall ep t) w) = fetch_count w.
Proof.
  unfold fetch_count, logged, emit. simpl.
  rewrite filter_app. simpl. now rewrite app_nil_r.
Qed.

(** [cache_check] only reads. *)
Lemma cache_check_world env ep o w : snd (cache_check env ep o w) = w.
Proof.
  unfold cache_check. js_unfold. repeat js_case; reflexivity.
Qed.

Lemma cache_check_returns env ep o w :
  exists r, fst (cache_check env ep o w) = Returned r.
Proof.
  unfold cache_check. js_unfold. repeat js_case; eexists; reflexivity.
Qed.

(** A fresh entry answers the call. *)
Lemma cache_check_fresh env ep o w c :
  is_get o = true -> skip_cache o = false ->
  apiCache w !! cache_key env ep o = Some c ->
  clock w - timestamp c < CACHE_TTL ->
  cache_check env ep o w = (Returned (Some (data c)), w).
Proof.
  intros Hg Hs Hc Hf. unfold cache_check. js_unfold.
  rewrite Hg, Hs. simpl. rewrite Hc. simpl.
  destruct (Z.ltb_spec (clock w - timestamp c) CACHE_TTL); [reflexivity | lia].
Qed.

(** The [config] literal is built, or [AbortSignal.timeout] throws. *)
Lemma make_config_eq plat o tm w :
  make_config plat o tm w
  = if config_built plat o tm then (Returned (build_config o tm), w)
    else (Threw (delay_refused plat tm), w).
Proof.
  unfold make_config, signal_or_timeout, config_built, build_config, AbortSignal_timeout,
    bind, ret, throw.
  destruct (init_signal o) as [| [s |]]; try reflexivity;
    destruct (timeout_accepted plat tm); reflexivity.
Qed.

(** Every platform accepts a delay that fits 32 bits. *)
Lemma timeout_accepted_32 plat ms :
  0 <= ms <= 4294967295 -> timeout_accepted plat ms = true.
Proof.
  intros [H0 H1]. pose proof (max_delay_covers plat) as Hm. unfold timeout_accepted.
  apply andb_true_intro. split; apply Z.leb_le; lia.
Qed.

Lemma config_built_32 plat o ms :
  0 <= ms <= 4294967295 -> config_built plat o ms = true.
Proof.
  intros H. unfold config_built.
  destruct (init_signal o) as [| [s |]]; auto using timeout_accepted_32.
Qed.

(** [api] after its entry event: answered from the cache, or refused by
    [AbortSignal.timeout], or the request. *)
Lemma api_unfold plat env net ep options t w :
  api plat env net ep options t w
  = let o := default empty_init options in
    let tm := default 30000 t in
    let w1 := logged (EvCall ep tm) w in
    match fst (cache_check env ep o w1) with
    | Returned (Some d) => (Returned d, w1)
    | _ =>
        if config_built plat o tm
        then try_catch (try_request env net ep o tm) (on_request_error env ep o) w1
        else (Threw (delay_refused plat tm), w1)
    end.
Proof.
  unfold api. cbv zeta. unfold bind, emit, logged. simpl.
  set (o := default empty_init options). set (tm := default 30000 t).
  set (w1 := {| apiCache := apiCache w; clock := clock w;
                trace := (trace w ++ [EvCall ep tm])%list |}).
  pose proof (cache_check_world env ep o w1) as Hw.
  destruct (cache_check_returns env ep o w1) as [r Hr].
  destruct (cache_check env ep o w1) as [c w'].
  simpl in *. subst. destruct r; [reflexivity |].
  rewrite make_config_eq.
  destruct (config_built plat o tm); reflexivity.
Qed.

Lemma trace_logged ev w : trace (logged ev w) = (trace w ++ [ev])%list.
Proof. reflexivity. Qed.

(** What a call of [api] appends to the trace: its entry, then at most one
    [fetch] followed by console output only. *)
Lemma api_trace plat env net ep options t w :
  exists tail,
    trace (snd (api plat env net ep options t w))
    = (trace w ++ EvCall ep (default 30000 t) :: tail)%list
    /\ (tail = []
        \/ exists rest,
             tail = EvFetch (request_url env ep)
                      (build_config (default empty_init options) (default 30000 t)) :: rest
             /\ fetches rest = [] /\ schedule rest = []).
Proof.
  rewrite api_unfold. cbv zeta.
  set (o := default empty_init options). set (tm := default 30000 t).
  assert (Hreq : exists tail,
    trace (snd (try_catch (try_request env net ep o tm) (on_request_error env ep o)
                  (logged (EvCall ep tm) w)))
    = (trace w ++ EvCall ep tm :: tail)%list
    /\ (tail = [] \/ exists rest,
          tail = EvFetch (request_url env ep) (build_config o tm) :: rest
          /\ fetches rest = [] /\ schedule rest = [])).
  { destruct (request_trace env net ep o tm (logged (EvCall ep tm) w))
      as (rest & Ht & Hf & Hs).
    exists (EvFetch (request_url env ep) (build_config o tm) :: rest). split.
    - rewrite Ht, trace_logged, <- app_assoc. reflexivity.
    - right. exists rest. auto. }
  assert (Hrefused : exists tail,
    trace (logged (EvCall ep tm) w) = (trace w ++ EvCall ep tm :: tail)%list
    /\ (tail = [] \/ exists rest,
          tail = EvFetch (request_url env ep) (build_config o tm) :: rest
          /\ fetches rest = [] /\ schedule rest = [])).
  { exists []. split; [reflexivity | now left]. }
  destruct (fst (cache_check env ep o (logged (EvCall ep tm) w))) as [[d|]|e];
    try exact Hrefused; destruct (config_built plat o tm); auto.
Qed.

Lemma fetches_nil_no_fetch rest url cfg :
  fetches rest = [] -> ~ In (EvFetch url cfg) rest.
Proof.
  intros Hf Hin.
  assert (Hm : In (EvFetch url cfg) (fetches rest)).
  { unfold fetches. apply list_elem_of_In, list_elem_of_filter.
    split; [exact I | now apply list_elem_of_In]. }
  rewrite Hf in Hm. destruct Hm.
Qed.

(** Every [fetch] of a call carries the configuration [build_config]
    makes. *)
Lemma api_fetch_config plat env net ep options t w url cfg :
  In (EvFetch url cfg) (events_since w (snd (api plat env net ep options t w))) ->
  url = request_url env ep
  /\ cfg = build_config (default empty_init options) (default 30000 t).
Proof.
  destruct (api_trace plat env net ep options t w) as (tail & Ht & Hshape).
  rewrite (events_since_app _ _ _ Ht). intros [Hin | Hin]; [discriminate |].
  destruct Hshape as [-> | (rest & -> & Hf & _)]; [destruct Hin |].
  destruct Hin as [Heq | Hin].
  - now inversion Heq.
  - exfalso. eapply fetches_nil_no_fetch; eauto.
Qed.

(** ** C3: the abort signal of a request *)

(** C3, as amended.  Whenever [api] issues a [fetch]: if the caller's
    options carry no [signal] property, the request gets
    [AbortSignal.timeout(timeoutMs)], with 30000 ms when no [timeoutMs] is
    passed; if the caller passes a signal, that signal is the request's
    and the timeout is not installed. *)
Theorem api_request_signal plat env net ep options t w url cfg :
  In (EvFetch url cfg) (events_since w (snd (api plat env net ep options t w))) ->
  (init_signal (default empty_init options) = Absent ->
   cfg_signal cfg = Some (TimeoutSignal (default 30000 t)))
  /\ (forall s, init_signal (default empty_init options) = Own (Some s) ->
      cfg_signal cfg = Some s).
Proof.
  intros Hin. apply api_fetch_config in Hin as [_ ->].
  unfold build_config. simpl. split.
  - intros ->. reflexivity.
  - intros s ->. reflexivity.
Qed.

Lemma api_request_signal_witness :
  cfg_signal (build_config empty_init 30000) = Some (TimeoutSignal 30000)
  /\ cfg_signal (build_config (signalled_init (CallerSignal 1)) 8000)
     = Some (CallerSignal 1).
Proof.
  split.
  - apply (proj1 (api_request_signal web_platform None (net_ok JNull) "/stats" None None (fresh_world 0)
                    "http://127.0.0.1:8000/api/stats" (build_config empty_init 30000)
                    ltac:(vm_compute; right; left; reflexivity))).
    reflexivity.
  - apply (proj2 (api_request_signal web_platform None (net_ok JNull) "/stats"
                    (Some (signalled_init (CallerSignal 1))) (Some 8000) (fresh_world 0)
                    "http://127.0.0.1:8000/api/stats"
                    (build_config (signalled_init (CallerSignal 1)) 8000)
                    ltac:(vm_compute; right; left; reflexivity))).
    reflexivity.
Defined.

(** C3 as stated fails: a caller who passes [signal] in the options gets a
    request without the timeout signal, whatever [timeoutMs] says. *)
Lemma api_request_signal_counterexample :
  ~ (forall plat env net ep options t w url cfg,
        In (EvFetch url cfg) (events_since w (snd (api plat env net ep options t w))) ->
        cfg_signal cfg = Some (TimeoutSignal (default 30000 t))).
Proof.
  intros H.
  specialize (H web_platform None (net_ok JNull) "/stats" (Some (signalled_init (CallerSignal 1)))
                (Some 8000) (fresh_world 0) "http://127.0.0.1:8000/api/stats"
                (build_config (signalled_init (CallerSignal 1)) 8000)).
  assert (Hin : In (EvFetch "http://127.0.0.1:8000/api/stats"
                      (build_config (signalled_init (CallerSignal 1)) 8000))
                   (events_since (fresh_world 0)
                      (snd (api web_platform None (net_ok JNull) "/stats"
                              (Some (signalled_init (CallerSignal 1))) (Some 8000)
                              (fresh_world 0))))).
  { vm_compute. right. left. reflexivity. }
  apply H in Hin. vm_compute in Hin. discriminate.
Qed.

(** ** The request phase of [api] *)

Lemma cache_check_logged env ep o ev w :
  fst (cache_check env ep o (logged ev w)) = fst (cache_check env ep o w).
Proof.
  unfold cache_check, logged. js_unfold. simpl. repeat js_case; reflexivity.
Qed.

(** A [try] block that throws has not written the cache. *)
Lemma try_request_throw_cache env net ep o tm w e :
  fst (try_request env net ep o tm w) = Threw e ->
  apiCache (snd (try_request env net ep o tm w)) = apiCache w.
Proof.
  unfold try_request, send_request. js_unfold. simpl.
  repeat js_case; intros H; try discriminate H; reflexivity.
Qed.

(** A [try] block that returns has issued one request, and stored its data
    exactly when the method is GET and the result is a success. *)
Lemma try_request_return env net ep o tm w v :
  fst (try_request env net ep o tm w) = Returned v ->
  let reply := net (fetch_count w) (request_url env ep) (build_config o tm) (clock w) in
  if is_get o then
    match reply_success reply with
    | Some d =>
        v = d
        /\ apiCache (snd (try_request env net ep o tm w))
           = <[cache_key env ep o := {| data := d; timestamp := clock w + took reply |}]>
               (apiCache w)
    | None => apiCache (snd (try_request env net ep o tm w)) = apiCache w
    end
  else apiCache (snd (try_request env net ep o tm w)) = apiCache w.
Proof.
  unfold try_request, send_request, reply_success. js_unfold. simpl.
  repeat js_case; intros H; try discriminate H; simpl in *;
    try congruence; try (inversion H; subst; auto).
Qed.

(** The [catch] block never writes the cache. *)
Lemma on_request_error_cache env ep o e w :
  apiCache (snd (on_request_error env ep o e w)) = apiCache w.
Proof.
  unfold on_request_error. js_unfold. simpl. repeat js_case; reflexivity.
Qed.

(** With a cache entry at hand, a GET's [catch] block returns it. *)
Lemma on_request_error_stale env ep o e w c :
  is_get o = true -> apiCache w !! cache_key env ep o = Some c ->
  fst (on_request_error env ep o e w) = Returned (data c).
Proof.
  intros Hg Hc. unfold on_request_error. js_unfold. rewrite Hg. simpl.
  rewrite Hc. reflexivity.
Qed.

(** Without one, it throws: the timeout error for an error that names a
    timeout. *)
Lemma on_request_error_timeout env ep o e w :
  (if is_get o then apiCache w !! cache_key env ep o else None) = None ->
  names_timeout e = true ->
  fst (on_request_error env ep o e w) = Threw (new_Error timeout_message).
Proof.
  intros Hn Ht. unfold on_request_error. js_unfold.
  destruct (is_get o); simpl in *; [rewrite Hn |]; simpl;
    (destruct e as [name message | v]; simpl in *; [rewrite Ht; reflexivity | discriminate]).
Qed.

Lemma on_request_error_throws env ep o e w :
  (if is_get o then apiCache w !! cache_key env ep o else None) = None ->
  exists e', fst (on_request_error env ep o e w) = Threw e'.
Proof.
  intros Hn. unfold on_request_error. js_unfold.
  destruct (is_get o); simpl in *; [rewrite Hn |]; simpl;
    repeat js_case; eexists; reflexivity.
Qed.

(** A rejected [fetch] makes the [try] block throw the rejection. *)
Lemma try_request_rejected env net ep o tm w e :
  outcome (net (fetch_count w) (request_url env ep) (build_config o tm) (clock w))
  = Rejected e ->
  fst (try_request env net ep o tm w) = Threw e
  /\ apiCache (snd (try_request env net ep o tm w)) = apiCache w.
Proof.
  intros Ho. unfold try_request, send_request. js_unfold. simpl. rewrite Ho. simpl. auto.
Qed.

(** A successful result makes the [try] block return its data. *)
Lemma try_request_success env net ep o tm w d :
  reply_success (net (fetch_count w) (request_url env ep) (build_config o tm) (clock w))
  = Some d ->
  fst (try_request env net ep o tm w) = Returned d.
Proof.
  unfold try_request, send_request, reply_success. js_unfold. simpl.
  repeat js_case; intros H; try discriminate H; simpl in *; congruence.
Qed.

(** An answer from the cache comes from a GET's entry. *)
Lemma cache_check_hit env ep o w d :
  fst (cache_check env ep o w) = Returned (Some d) ->
  is_get o = true
  /\ exists c, apiCache w !! cache_key env ep o = Some c /\ d = data c.
Proof.
  unfold cache_check. js_unfold.
  destruct (is_get o); simpl; [| discriminate].
  destruct (negb (skip_cache o)); simpl; [| discriminate].
  destruct (apiCache w !! cache_key env ep o) as [c |]; simpl; [| discriminate].
  destruct (clock w - timestamp c <? CACHE_TTL); simpl; [| discriminate].
  intros H. inversion H. eauto.
Qed.

(** What one call of [api] does to the cache. *)
Lemma api_cache_effect plat env net ep options t w :
  let o := default empty_init options in
  let tm := default 30000 t in
  let reply := net (fetch_count w) (request_url env ep) (build_config o tm) (clock w) in
  apiCache (snd (api plat env net ep options t w))
  = match fst (cache_check env ep o w) with
    | Returned (Some _) => apiCache w
    | _ =>
        if config_built plat o tm && is_get o then
          match reply_success reply with
          | Some d =>
              <[cache_key env ep o := {| data := d; timestamp := clock w + took reply |}]>
                (apiCache w)
          | None => apiCache w
          end
        else apiCache w
    end.
Proof.
  intros o tm reply. rewrite api_unfold. cbv zeta. fold o tm.
  rewrite cache_check_logged.
  assert (Hmiss :
    apiCache (snd (try_catch (try_request env net ep o tm) (on_request_error env ep o)
                     (logged (EvCall ep tm) w)))
    = if is_get o then
        match reply_success reply with
        | Some d =>
            <[cache_key env ep o := {| data := d; timestamp := clock w + took reply |}]>
              (apiCache w)
        | None => apiCache w
        end
      else apiCache w).
  { set (w1 := logged (EvCall ep tm) w).
    assert (Hr : net (fetch_count w1) (request_url env ep) (build_config o tm) (clock w1)
                 = reply).
    { unfold w1. rewrite fetch_count_logged_call. reflexivity. }
    pose proof (try_request_return env net ep o tm w1) as Hret.
    pose proof (try_request_throw_cache env net ep o tm w1) as Hthrow.
    pose proof (try_request_success env net ep o tm w1) as Hsucc.
    rewrite Hr in Hret, Hsucc. unfold try_catch.
    destruct (try_request env net ep o tm w1) as [[v | e] w'] eqn:Htry; simpl in *.
    - specialize (Hret v eq_refl).
      destruct (is_get o); [| exact Hret].
      destruct (reply_success reply); [apply Hret | exact Hret].
    - rewrite on_request_error_cache, (Hthrow e eq_refl).
      destruct (is_get o); [| reflexivity].
      destruct (reply_success reply) as [d |]; [| reflexivity].
      specialize (Hsucc d eq_refl). discriminate. }
  destruct (fst (cache_check env ep o w)) as [[d |] | e];
    destruct (config_built plat o tm); auto.
Qed.

(** ** C4: what a timed-out request yields *)

(** C4, as amended.  For a call whose [config] gets built (the caller
    brings a signal, or [timeoutMs] is a delay [AbortSignal.timeout]
    accepts): when the [fetch] is rejected with an error the [catch] block
    takes for a timeout (named AbortError, or with "timeout" in its
    message), [api] throws the "API request timeout" error if the method is
    not GET or the cache has no entry for the method and URL; a GET with an
    entry, however old, returns the entry's data instead. *)
Theorem api_timeout_error plat env net ep options t w e :
  let o := default empty_init options in
  let tm := default 30000 t in
  config_built plat o tm = true ->
  outcome (net (fetch_count w) (request_url env ep) (build_config o tm) (clock w))
  = Rejected e ->
  names_timeout e = true ->
  fst (api plat env net ep options t w)
  = match (if is_get o then apiCache w !! cache_key env ep o else None) with
    | Some c => Returned (data c)
    | None => Threw (new_Error timeout_message)
    end.
Proof.
  intros o tm Hb Ho Ht. rewrite api_unfold. cbv zeta. fold o tm.
  rewrite cache_check_logged, Hb.
  assert (Hmiss :
    fst (try_catch (try_request env net ep o tm) (on_request_error env ep o)
           (logged (EvCall ep tm) w))
    = match (if is_get o then apiCache w !! cache_key env ep o else None) with
      | Some c => Returned (data c)
      | None => Threw (new_Error timeout_message)
      end).
  { set (w1 := logged (EvCall ep tm) w).
    destruct (try_request_rejected env net ep o tm w1 e) as [Hthrow Hcache].
    { unfold w1. rewrite fetch_count_logged_call. exact Ho. }
    unfold try_catch.
    destruct (try_request env net ep o tm w1) as [[v | e'] w'] eqn:Htry; simpl in *;
      [discriminate |].
    inversion Hthrow; subst e'.
    destruct (is_get o) eqn:Hg.
    - destruct (apiCache w !! cache_key env ep o) as [c |] eqn:Hc.
      + apply on_request_error_stale; [exact Hg | now rewrite Hcache].
      + apply on_request_error_timeout; [| exact Ht]. rewrite Hg, Hcache. exact Hc.
    - apply on_request_error_timeout; [| exact Ht]. now rewrite Hg. }
  destruct (fst (cache_check env ep o w)) as [[d |] | e0] eqn:Hcheck; auto.
  apply cache_check_hit in Hcheck as (Hg & c & Hc & ->).
  now rewrite Hg, Hc.
Qed.

Lemma api_timeout_error_witness :
  fst (api web_platform None net_silent "/stats" None (Some 1) (fresh_world 0))
  = Threw (new_Error timeout_message)
  /\ fst (api web_platform None net_silent "/contact" (Some (method_init "POST")) None (fresh_world 0))
     = Threw (new_Error timeout_message).
Proof.
  split.
  - exact (api_timeout_error web_platform None net_silent "/stats" None (Some 1) (fresh_world 0)
             (ThrownError "AbortError" "The operation was aborted.")
             eq_refl eq_refl eq_refl).
  - exact (api_timeout_error web_platform None net_silent "/contact"
             (Some (method_init "POST")) None (fresh_world 0)
             (ThrownError "AbortError" "The operation was aborted.")
             eq_refl eq_refl eq_refl).
Defined.

(** C4 as stated fails: a GET that was answered once and then times out,
    a minute later, returns the old data and throws nothing. *)
Lemma api_timeout_error_counterexample :
  ~ (forall plat env net ep options t w e,
        config_built plat (default empty_init options) (default 30000 t) = true ->
        fst (cache_check env ep (default empty_init options) w) = Returned None ->
        outcome (net (fetch_count w) (request_url env ep)
                   (build_config (default empty_init options) (default 30000 t)) (clock w))
        = Rejected e ->
        names_timeout e = true ->
        fst (api plat env net ep options t w) = Threw (new_Error timeout_message)).
Proof.
  intros H.
  set (net := net_then_silent (JNum 3)).
  set (w1 := later 60000 (snd (api web_platform None net "/stats" None None (fresh_world 0)))).
  specialize (H web_platform None net "/stats" None (Some 1) w1
                (ThrownError "AbortError" "The operation was aborted.")).
  assert (Hret : fst (api web_platform None net "/stats" None (Some 1) w1) = Returned (JNum 3))
    by (vm_compute; reflexivity).
  rewrite Hret in H.
  assert (Hfalse : Returned (JNum 3) = Threw (new_Error timeout_message)).
  { apply H; vm_compute; reflexivity. }
  discriminate Hfalse.
Qed.

(** ** C8: the five-second cache of GET results *)

(** C8.  A GET without [skipCache] that finds an entry for its method and
    URL less than 5000 ms old returns the entry's data, issues no request
    and leaves the cache alone; a GET whose request is made (its [config]
    gets built: [timeoutMs] is a delay [AbortSignal.timeout] accepts, or the
    caller brings a signal) and brings a successful result returns its data
    and stores it under the method and URL, stamped with the time of the
    response; a call with another method, or one whose result is not a
    success, leaves the cache as it was. *)
Theorem api_get_memoized plat env net ep options t w :
  let o := default empty_init options in
  let tm := default 30000 t in
  let key := cache_key env ep o in
  let reply := net (fetch_count w) (request_url env ep) (build_config o tm) (clock w) in
  let run := api plat env net ep options t w in
  (forall c, is_get o = true -> skip_cache o = false ->
     apiCache w !! key = Some c -> clock w - timestamp c < 5000 ->
     run = (Returned (data c), logged (EvCall ep tm) w))
  /\ (forall d, is_get o = true -> fst (cache_check env ep o w) = Returned None ->
      config_built plat o tm = true ->
      reply_success reply = Some d ->
      fst run = Returned d
      /\ apiCache (snd run) !! key
         = Some {| data := d; timestamp := clock w + took reply |})
  /\ (is_get o = false -> apiCache (snd run) = apiCache w)
  /\ (reply_success reply = None -> apiCache (snd run) = apiCache w).
Proof.
  intros o tm key reply run.
  pose proof (api_cache_effect plat env net ep options t w) as Heff.
  cbv zeta in Heff. fold o tm key reply run in Heff.
  split; [| split; [| split]].
  - intros c Hg Hs Hc Hf. unfold run. rewrite api_unfold. cbv zeta. fold o tm.
    rewrite cache_check_logged,
      (cache_check_fresh env ep o w c Hg Hs Hc Hf). reflexivity.
  - intros d Hg Hmiss Hb Hd. split.
    + unfold run. rewrite api_unfold. cbv zeta. fold o tm.
      rewrite cache_check_logged, Hmiss, Hb. unfold try_catch.
      pose proof (try_request_success env net ep o tm (logged (EvCall ep tm) w) d) as Hs.
      rewrite fetch_count_logged_call in Hs. specialize (Hs Hd).
      destruct (try_request env net ep o tm (logged (EvCall ep tm) w)) as [[v | e] w'];
        simpl in *; congruence.
    + rewrite Heff, Hmiss, Hb, Hg, Hd. apply lookup_insert_eq.
  - intros Hg. rewrite Heff, Hg, andb_false_r.
    destruct (fst (cache_check env ep o w)) as [[d |] | e]; reflexivity.
  - intros Hn. rewrite Heff, Hn.
    destruct (fst (cache_check env ep o w)) as [[d |] | e];
      destruct (config_built plat o tm && is_get o); reflexivity.
Qed.

Lemma api_get_memoized_witness :
  let net := net_ok (JNum 5) in
  let key := "GET:http://127.0.0.1:8000/api/stats" in
  let w0 := fresh_world 0 in
  let w1 := later 4000 (snd (api web_platform None net "/stats" None None w0)) in
  api web_platform None net "/stats" None None w1 = (Returned (JNum 5), logged (EvCall "/stats" 30000) w1)
  /\ (fst (api web_platform None net "/stats" None None w0) = Returned (JNum 5)
      /\ apiCache (snd (api web_platform None net "/stats" None None w0)) !! key
         = Some {| data := JNum 5; timestamp := 35 |})
  /\ apiCache (snd (api web_platform None net "/stats" (Some (method_init "POST")) None w1))
     = apiCache w1
  /\ apiCache (snd (api web_platform None net_unknown "/stats" None None w0)) = apiCache w0.
Proof.
  intros net key w0 w1. split; [| split; [| split]].
  - apply (proj1 (api_get_memoized web_platform None net "/stats" None None w1)
             {| data := JNum 5; timestamp := 35 |});
      vm_compute; reflexivity.
  - apply (proj1 (proj2 (api_get_memoized web_platform None net "/stats" None None w0)) (JNum 5));
      vm_compute; reflexivity.
  - apply (proj1 (proj2 (proj2 (api_get_memoized web_platform None net "/stats"
                                  (Some (method_init "POST")) None w1))));
      vm_compute; reflexivity.
  - apply (proj2 (proj2 (proj2 (api_get_memoized web_platform None net_unknown "/stats" None None w0))));
      vm_compute; reflexivity.
Defined.

(** ** C9: stale data instead of an error *)

(** With a cache entry for its method and URL, a GET whose [config] gets
    built never throws. *)
Lemma api_get_with_entry plat env net ep options t w c :
  let o := default empty_init options in
  let tm := default 30000 t in
  is_get o = true ->
  config_built plat o tm = true ->
  apiCache w !! cache_key env ep o = Some c ->
  (forall e, fst (try_request env net ep o tm (logged (EvCall ep tm) w)) = Threw e ->
             fst (api plat env net ep options t w) = Returned (data c))
  /\ exists v, fst (api plat env net ep options t w) = Returned v.
Proof.
  intros o tm Hg Hb Hc. rewrite api_unfold. cbv zeta. fold o tm.
  rewrite cache_check_logged, Hb.
  set (w1 := logged (EvCall ep tm) w).
  destruct (fst (cache_check env ep o w)) as [[d |] | e0] eqn:Hcheck.
  - apply cache_check_hit in Hcheck as (_ & c' & Hc' & ->).
    assert (Heq : c' = c) by congruence. rewrite Heq. split; eauto.
  - pose proof (try_request_throw_cache env net ep o tm w1) as Hthrow.
    unfold try_catch.
    destruct (try_request env net ep o tm w1) as [[v | e] w'] eqn:Htry; simpl in *.
    + split; [discriminate | eauto].
    + assert (Hst : fst (on_request_error env ep o e w') = Returned (data c)).
      { apply on_request_error_stale; [exact Hg |]. rewrite (Hthrow e eq_refl). exact Hc. }
      split; [intros e1 _; exact Hst | eauto].
  - destruct (cache_check_returns env ep o w) as [r Hr]. congruence.
Qed.

(** C9.  For a GET whose request is made (its [config] gets built:
    [timeoutMs] is a delay [AbortSignal.timeout] accepts, or the caller
    brings a signal): when the request fails (the [try] block throws: a
    rejected [fetch], a non-ok status, an unreadable body) and the cache has
    an entry for the method and URL, of whatever age, [api] returns the
    entry's data; if [api] throws, the cache has no entry for the method and
    URL.  And no call ever removes an entry, so an entry is there as soon as
    one successful response was stored. *)
Theorem api_stale_fallback plat env net ep options t w :
  let o := default empty_init options in
  let tm := default 30000 t in
  let key := cache_key env ep o in
  let run := api plat env net ep options t w in
  is_get o = true ->
  (forall c e, config_built plat o tm = true ->
     apiCache w !! key = Some c ->
     fst (try_request env net ep o tm (logged (EvCall ep tm) w)) = Threw e ->
     fst run = Returned (data c))
  /\ (forall e, config_built plat o tm = true ->
      fst run = Threw e -> apiCache w !! key = None)
  /\ (forall k, is_Some (apiCache w !! k) -> is_Some (apiCache (snd run) !! k)).
Proof.
  intros o tm key run Hg. split; [| split].
  - intros c e Hb Hc Hfail.
    exact (proj1 (api_get_with_entry plat env net ep options t w c Hg Hb Hc) e Hfail).
  - intros e Hb Hthrow. destruct (apiCache w !! key) as [c |] eqn:Hc; [| reflexivity].
    destruct (proj2 (api_get_with_entry plat env net ep options t w c Hg Hb Hc)) as [v Hv].
    unfold run in Hthrow. congruence.
  - intros k Hk. unfold run. rewrite api_cache_effect. cbv zeta. fold o tm key.
    destruct (fst (cache_check env ep o w)) as [[d |] | e];
      destruct (config_built plat o tm); rewrite ?Hg; cbn [andb];
      try exact Hk;
      (destruct (reply_success _); [| exact Hk];
       destruct (decide (key = k)) as [-> | Hne];
       [rewrite lookup_insert_eq; eauto | rewrite lookup_insert_ne; auto]).
Qed.

Lemma api_stale_fallback_witness :
  let net := net_then_silent (JNum 3) in
  let w1 := later 60000 (snd (api web_platform None net "/stats" None None (fresh_world 0))) in
  fst (api web_platform None net "/stats" None (Some 1) w1) = Returned (JNum 3)
  /\ apiCache (fresh_world 0) !! "GET:http://127.0.0.1:8000/api/stats" = None
  /\ is_Some (apiCache (snd (api web_platform None net "/stats" None (Some 1) w1))
                !! "GET:http://127.0.0.1:8000/api/stats").
Proof.
  intros net w1. split; [| split].
  - apply (proj1 (api_stale_fallback web_platform None net "/stats" None (Some 1) w1 eq_refl)
             {| data := JNum 3; timestamp := 35 |}
             (ThrownError "AbortError" "The operation was aborted."));
      vm_compute; reflexivity.
  - apply (proj1 (proj2 (api_stale_fallback web_platform None net_unknown "/stats" None None
                           (fresh_world 0) eq_refl))
             (new_Error "API request failed: 404 Not Found"));
      vm_compute; reflexivity.
  - apply (proj2 (proj2 (api_stale_fallback web_platform None net "/stats" None (Some 1) w1 eq_refl))).
    exists {| data := JNum 3; timestamp := 35 |}. vm_compute. reflexivity.
Defined.

(** ** getCctvStreamUrl *)

(** One turn: the answer of [api], or a pause (a console error after the
    last turn). *)
Lemma stream_attempt_eq plat env net i cctvId w :
  stream_attempt plat env net i cctvId w
  = match api plat env net (stream_endpoint cctvId) (Some empty_init) (attempts !! i) w with
    | (Returned v, w') => (Returned (Some v), w')
    | (Threw e, w') =>
        (Returned None,
         if Nat.eqb i 2 then logged (EvError (stream_error_label cctvId) e) w'
         else paused plat 750 w')
    end.
Proof.
  unfold stream_attempt, try_catch, bind, ret, paused, logged, stream_error_label.
  destruct (api plat env net (stream_endpoint cctvId) (Some empty_init) (attempts !! i) w)
    as [[v | e] w']; [reflexivity |].
  change (length attempts - 1)%nat with 2%nat.
  destruct (Nat.eqb i 2); reflexivity.
Qed.

Lemma stream_loop_S plat env net remaining i cctvId w :
  stream_loop plat env net (S remaining) i cctvId w
  = match stream_attempt plat env net i cctvId w with
    | (Returned (Some v), w') => (Returned v, w')
    | (Returned None, w') => stream_loop plat env net remaining (S i) cctvId w'
    | (Threw e, w') => (Threw e, w')
    end.
Proof.
  cbn [stream_loop]. unfold bind.
  destruct (stream_attempt plat env net i cctvId w) as [[[v |] | e] w']; reflexivity.
Qed.

(** The loop, turn by turn. *)
Lemma stream_run plat env net cctvId w :
  let ep := stream_endpoint cctvId in
  let a1 := api plat env net ep (Some empty_init) (Some 12000) w in
  let a2 := api plat env net ep (Some empty_init) (Some 15000) (paused plat 750 (snd a1)) in
  let a3 := api plat env net ep (Some empty_init) (Some 20000) (paused plat 750 (snd a2)) in
  getCctvStreamUrl plat env net cctvId w
  = match fst a1 with
    | Returned v => (Returned v, snd a1)
    | Threw _ =>
        match fst a2 with
        | Returned v => (Returned v, snd a2)
        | Threw _ =>
            match fst a3 with
            | Returned v => (Returned v, snd a3)
            | Threw e =>
                (Returned emptyStream, logged (EvError (stream_error_label cctvId) e) (snd a3))
            end
        end
    end.
Proof.
  intros ep a1 a2 a3. subst a1 a2 a3.
  unfold getCctvStreamUrl. change (length attempts) with 3%nat.
  rewrite stream_loop_S, stream_attempt_eq. fold ep.
  change (attempts !! 0%nat) with (Some 12000).
  destruct (api plat env net ep (Some empty_init) (Some 12000) w) as [[v1 | e1] w1];
    cbn [fst snd Nat.eqb]; [reflexivity |].
  rewrite stream_loop_S, stream_attempt_eq. fold ep.
  change (attempts !! 1%nat) with (Some 15000).
  destruct (api plat env net ep (Some empty_init) (Some 15000) (paused plat 750 w1)) as [[v2 | e2] w2];
    cbn [fst snd Nat.eqb]; [reflexivity |].
  rewrite stream_loop_S, stream_attempt_eq. fold ep.
  change (attempts !! 2%nat) with (Some 20000).
  destruct (api plat env net ep (Some empty_init) (Some 20000) (paused plat 750 w2)) as [[v3 | e3] w3];
    cbn [fst snd Nat.eqb]; reflexivity.
Qed.

Lemma schedule_app (a b : list Event) :
  schedule (a ++ b) = (schedule a ++ schedule b)%list.
Proof.
  induction a as [| ev a IH]; [reflexivity |].
  destruct ev; simpl; rewrite IH; reflexivity.
Qed.

(** A call of [api] appends events whose schedule is the one attempt. *)
Lemma api_schedule plat env net ep options t w :
  exists evs,
    trace (snd (api plat env net ep options t w)) = (trace w ++ evs)%list
    /\ schedule evs = [Attempt (default 30000 t)].
Proof.
  destruct (api_trace plat env net ep options t w) as (tail & Ht & Hshape).
  exists (EvCall ep (default 30000 t) :: tail). split; [exact Ht |].
  destruct Hshape as [-> | (rest & -> & _ & Hs)]; simpl; [| rewrite Hs]; reflexivity.
Qed.

Lemma trace_paused plat ms w : trace (paused plat ms w) = (trace w ++ [EvTimer ms])%list.
Proof. reflexivity. Qed.

(** The schedule of a whole run, by the turn that ends it. *)
Lemma stream_schedule plat env net cctvId w :
  let ep := stream_endpoint cctvId in
  let a1 := api plat env net ep (Some empty_init) (Some 12000) w in
  let a2 := api plat env net ep (Some empty_init) (Some 15000) (paused plat 750 (snd a1)) in
  let a3 := api plat env net ep (Some empty_init) (Some 20000) (paused plat 750 (snd a2)) in
  schedule (events_since w (snd (getCctvStreamUrl plat env net cctvId w)))
  = match fst a1 with
    | Returned _ => [Attempt 12000]
    | Threw _ =>
        match fst a2 with
        | Returned _ => [Attempt 12000; Delay 750; Attempt 15000]
        | Threw _ => [Attempt 12000; Delay 750; Attempt 15000; Delay 750; Attempt 20000]
        end
    end.
Proof.
  intros ep a1 a2 a3. rewrite stream_run. cbv zeta. fold ep a1 a2 a3.
  destruct (api_schedule plat env net ep (Some empty_init) (Some 12000) w)
    as (ev1 & Ht1 & Hs1).
  destruct (api_schedule plat env net ep (Some empty_init) (Some 15000) (paused plat 750 (snd a1)))
    as (ev2 & Ht2 & Hs2).
  destruct (api_schedule plat env net ep (Some empty_init) (Some 20000) (paused plat 750 (snd a2)))
    as (ev3 & Ht3 & Hs3).
  fold a1 in Ht1. fold a2 in Ht2. fold a3 in Ht3.
  rewrite trace_paused in Ht2, Ht3. rewrite Ht1 in Ht2. rewrite Ht2 in Ht3.
  simpl in Hs1, Hs2, Hs3.
  destruct (fst a1) as [v1 | e1]; cbn [snd].
  { rewrite (events_since_app _ _ _ Ht1). exact Hs1. }
  destruct (fst a2) as [v2 | e2]; cbn [snd].
  { repeat rewrite <- app_assoc in Ht2. rewrite (events_since_app _ _ _ Ht2).
    rewrite !schedule_app, Hs1, Hs2. reflexivity. }
  assert (Hall : schedule (ev1 ++ [EvTimer 750] ++ ev2 ++ [EvTimer 750] ++ ev3)
                 = [Attempt 12000; Delay 750; Attempt 15000; Delay 750; Attempt 20000]).
  { rewrite !schedule_app, Hs1, Hs2, Hs3. reflexivity. }
  repeat rewrite <- app_assoc in Ht3.
  destruct (fst a3) as [v3 | e3]; cbn [snd].
  - rewrite (events_since_app _ _ _ Ht3). exact Hall.
  - rewrite (events_since_app _ _
               ((ev1 ++ [EvTimer 750] ++ ev2 ++ [EvTimer 750] ++ ev3) ++ [EvError (stream_error_label cctvId) e3])).
    + rewrite schedule_app, Hall. reflexivity.
    + rewrite trace_logged, Ht3. repeat rewrite <- app_assoc. reflexivity.
Qed.

Lemma attempt_timeouts_schedule (evs : list Event) :
  attempt_timeouts evs
  = flat_map (fun st => match st with Attempt t => [t] | Delay _ => [] end) (schedule evs).
Proof.
  induction evs as [| ev evs IH]; [reflexivity |].
  destruct ev; simpl; rewrite IH; reflexivity.
Qed.

(** ** C1: three attempts, growing timeouts, a pause in between *)


(** ** C2: what the caller learns of a failure *)

(** C2, as amended.  When all three attempts fail, whatever the three
    errors are, [getCctvStreamUrl] returns the same value, the object with
    an empty [stream_url]; the last error goes to the console and nowhere
    else. *)
Theorem getCctvStreamUrl_failure plat env net cctvId w e1 e2 e3 :
  let ep := stream_endpoint cctvId in
  let a1 := api plat env net ep (Some empty_init) (Some 12000) w in
  let a2 := api plat env net ep (Some empty_init) (Some 15000) (paused plat 750 (snd a1)) in
  let a3 := api plat env net ep (Some empty_init) (Some 20000) (paused plat 750 (snd a2)) in
  fst a1 = Threw e1 -> fst a2 = Threw e2 -> fst a3 = Threw e3 ->
  getCctvStreamUrl plat env net cctvId w
  = (Returned emptyStream, logged (EvError (stream_error_label cctvId) e3) (snd a3)).
Proof.
  intros ep a1 a2 a3 H1 H2 H3. rewrite stream_run. cbv zeta. fold ep a1 a2 a3.
  rewrite H1, H2, H3. reflexivity.
Qed.

Lemma getCctvStreamUrl_failure_witness :
  fst (getCctvStreamUrl web_platform None net_unknown "7" (fresh_world 0)) = Returned emptyStream
  /\ fst (getCctvStreamUrl web_platform None net_silent "7" (fresh_world 0)) = Returned emptyStream.
Proof.
  split.
  - exact (f_equal fst
             (getCctvStreamUrl_failure web_platform None net_unknown "7" (fresh_world 0)
                (new_Error "API request failed: 404 Not Found")
                (new_Error "API request failed: 404 Not Found")
                (new_Error "API request failed: 404 Not Found")
                eq_refl eq_refl eq_refl)).
  - exact (f_equal fst
             (getCctvStreamUrl_failure web_platform None net_silent "7" (fresh_world 0)
                (new_Error timeout_message) (new_Error timeout_message)
                (new_Error timeout_message)
                eq_refl eq_refl eq_refl)).
Defined.

(** C2 as stated fails: an unknown source, an unavailable one and a timeout
    leave the caller with one and the same value, so nothing computed from
    the result can tell the three apart. *)
Lemma getCctvStreamUrl_failure_counterexample :
  ~ (exists status_of : Completion JsValue -> EngineError,
        status_of (fst (getCctvStreamUrl web_platform None net_unknown "7" (fresh_world 0)))
        = SourceUnknown
        /\ status_of (fst (getCctvStreamUrl web_platform None net_unavailable "7" (fresh_world 0)))
           = SourceUnavailable
        /\ status_of (fst (getCctvStreamUrl web_platform None net_silent "7" (fresh_world 0)))
           = Timeout).
Proof.
  intros (status_of & Hu & Ha & Ht).
  assert (E1 : fst (getCctvStreamUrl web_platform None net_unknown "7" (fresh_world 0))
               = Returned emptyStream) by (vm_compute; reflexivity).
  assert (E2 : fst (getCctvStreamUrl web_platform None net_unavailable "7" (fresh_world 0))
               = Returned emptyStream) by (vm_compute; reflexivity).
  rewrite E1 in Hu. rewrite E2 in Ha. congruence.
Qed.

(** ** C5: which failures are retried *)

(** C5, as amended.  A further attempt is made exactly when the previous
    one failed and fewer than three have been made: after a first call
    that returns there is no second, and after a call that throws,
    whatever it throws, the next timeout of the list is tried. *)
Theorem getCctvStreamUrl_retries plat env net cctvId w :
  let ep := stream_endpoint cctvId in
  let a1 := api plat env net ep (Some empty_init) (Some 12000) w in
  let a2 := api plat env net ep (Some empty_init) (Some 15000) (paused plat 750 (snd a1)) in
  let made := attempt_timeouts (events_since w (snd (getCctvStreamUrl plat env net cctvId w))) in
  (forall v, fst a1 = Returned v -> made = [12000])
  /\ (forall e1 v, fst a1 = Threw e1 -> fst a2 = Returned v -> made = [12000; 15000])
  /\ (forall e1 e2, fst a1 = Threw e1 -> fst a2 = Threw e2 ->
      made = [12000; 15000; 20000]).
Proof.
  intros ep a1 a2 made. unfold made.
  rewrite attempt_timeouts_schedule, stream_schedule. cbv zeta. fold ep a1 a2.
  split; [| split].
  - intros v ->. reflexivity.
  - intros e1 v -> ->. reflexivity.
  - intros e1 e2 -> ->. reflexivity.
Qed.

Lemma getCctvStreamUrl_retries_witness :
  attempt_timeouts
    (events_since (fresh_world 0) (snd (getCctvStreamUrl web_platform None (net_ok (JStr "u")) "7" (fresh_world 0))))
  = [12000]
  /\ attempt_timeouts
       (events_since (fresh_world 0) (snd (getCctvStreamUrl web_platform None net_warming "7" (fresh_world 0))))
     = [12000; 15000]
  /\ attempt_timeouts
       (events_since (fresh_world 0) (snd (getCctvStreamUrl web_platform None net_unknown "7" (fresh_world 0))))
     = [12000; 15000; 20000].
Proof.
  split; [| split].
  - exact (proj1 (getCctvStreamUrl_retries web_platform None (net_ok (JStr "u")) "7" (fresh_world 0))
             (JStr "u") eq_refl).
  - exact (proj1 (proj2 (getCctvStreamUrl_retries web_platform None net_warming "7" (fresh_world 0)))
             (new_Error timeout_message)
             (JObj [("stream_url", JStr "/live/7/index.m3u8")]) eq_refl eq_refl).
  - exact (proj2 (proj2 (getCctvStreamUrl_retries web_platform None net_unknown "7" (fresh_world 0)))
             (new_Error "API request failed: 404 Not Found")
             (new_Error "API request failed: 404 Not Found") eq_refl eq_refl).
Defined.

(** C5 as stated fails: the backend answers 404 to every request for a
    source it does not know, and the client still makes all three
    attempts. *)
Lemma getCctvStreamUrl_retries_counterexample :
  ~ (forall plat env net cctvId w,
        fst (api plat env net (stream_endpoint cctvId) (Some empty_init) (Some 12000) w)
        = Threw (new_Error "API request failed: 404 Not Found") ->
        attempt_timeouts (events_since w (snd (getCctvStreamUrl plat env net cctvId w)))
        = [12000]).
Proof.
  intros H.
  specialize (H web_platform None net_unknown "7" (fresh_world 0) eq_refl).
  vm_compute in H. discriminate H.
Qed.

(** ** C10: the getters and errors *)

Lemma swallow_eq (call : Js JsValue) (label : string) (fallback : JsValue) (w : World) :
  try_catch (response <- call ;; ret response)
    (fun error => emit (EvError label error) ;;; ret fallback) w
  = match call w with
    | (Returned v, w') => (Returned v, w')
    | (Threw e, w') => (Returned fallback, logged (EvError label e) w')
    end.
Proof.
  unfold try_catch, bind, ret, logged, emit.
  destruct (call w) as [[v | e] w']; reflexivity.
Qed.

Lemma swallow_throw (call : Js JsValue) (label : string) (fallback : JsValue) w e :
  fst (call w) = Threw e ->
  fst (try_catch (response <- call ;; ret response)
         (fun error => emit (EvError label error) ;;; ret fallback) w)
  = Returned fallback.
Proof.
  rewrite swallow_eq. destruct (call w) as [[v | e'] w']; simpl; [discriminate | reflexivity].
Qed.

Lemma swallow_never_throws (call : Js JsValue) (label : string) (fallback : JsValue) :
  never_throws (try_catch (response <- call ;; ret response)
                  (fun error => emit (EvError label error) ;;; ret fallback)).
Proof.
  intros w. rewrite swallow_eq. destruct (call w) as [[v | e] w']; eauto.
Qed.

Lemma getContacts_eq plat env net w :
  getContacts plat env net w
  = match api plat env net "/contact" None None w with
    | (Returned v, w') => (Returned (if truthy v then JArr [v] else JArr []), w')
    | (Threw e, w') => (Returned (JArr []), logged (EvError "Error fetching contacts:" e) w')
    end.
Proof.
  unfold getContacts, try_catch, bind, ret, logged, emit.
  destruct (api plat env net "/contact" None None w) as [[v | e] w']; reflexivity.
Qed.

Lemma getCctvStreamUrl_never_throws plat env net cctvId :
  never_throws (getCctvStreamUrl plat env net cctvId).
Proof.
  intros w. rewrite stream_run. cbv zeta.
  repeat match goal with
         | |- context [match fst ?a with _ => _ end] =>
             lazymatch a with
             | context [match _ with _ => _ end] => fail
             | _ => destruct (fst a)
             end
         end; eauto.
Qed.

(** C10.  When the underlying [api] call throws, [getStats] returns the
    all-zero stats and [getBuildings], [getRooms], [getCctvs],
    [getCctvsByRoom], [getProductionTrends], [getUnitPerformance] and
    [getContacts] return the empty array; none of the getters but
    [getDashboardBundle] ever throws, and [getDashboardBundle] throws the
    very error [api] threw. *)
Theorem getters_swallow_errors plat env net w e :
  (fst (api plat env net "/stats" None None w) = Threw e ->
   fst (getStats plat env net w) = Returned defaultStats)
  /\ (fst (api plat env net "/buildings" None None w) = Threw e ->
      fst (getBuildings plat env net w) = Returned (JArr []))
  /\ (fst (api plat env net "/rooms" None None w) = Threw e ->
      fst (getRooms plat env net w) = Returned (JArr []))
  /\ (fst (api plat env net "/cctvs" None None w) = Threw e ->
      fst (getCctvs plat env net w) = Returned (JArr []))
  /\ (forall roomId,
        fst (api plat env net ("/cctvs/room/" +:+ roomId) None None w) = Threw e ->
        fst (getCctvsByRoom plat env net roomId w) = Returned (JArr []))
  /\ (forall startDate endDate,
        fst (api plat env net (with_query "/production-trends" startDate endDate) None None w)
        = Threw e ->
        fst (getProductionTrends plat env net startDate endDate w) = Returned (JArr []))
  /\ (forall startDate endDate,
        fst (api plat env net (with_query "/unit-performance" startDate endDate) None None w)
        = Threw e ->
        fst (getUnitPerformance plat env net startDate endDate w) = Returned (JArr []))
  /\ (fst (api plat env net "/contact" None None w) = Threw e ->
      fst (getContacts plat env net w) = Returned (JArr []))
  /\ (fst (api plat env net "/dashboard-bundle" None None w) = Threw e ->
      fst (getDashboardBundle plat env net w) = Threw e)
  /\ (never_throws (getStats plat env net) /\ never_throws (getBuildings plat env net)
      /\ never_throws (getRooms plat env net) /\ never_throws (getCctvs plat env net)
      /\ never_throws (getContacts plat env net)
      /\ (forall id, never_throws (getBuilding plat env net id))
      /\ (forall id, never_throws (getRoom plat env net id))
      /\ (forall id, never_throws (getRoomsByBuilding plat env net id))
      /\ (forall id, never_throws (getCctvsByRoom plat env net id))
      /\ (forall id, never_throws (getCctvStreamUrl plat env net id))
      /\ (forall s d, never_throws (getProductionTrends plat env net s d))
      /\ (forall s d, never_throws (getUnitPerformance plat env net s d))).
Proof.
  split; [intros H; exact (swallow_throw _ _ _ _ e H) |].
  split; [intros H; exact (swallow_throw _ _ _ _ e H) |].
  split; [intros H; exact (swallow_throw _ _ _ _ e H) |].
  split; [intros H; exact (swallow_throw _ _ _ _ e H) |].
  split; [intros roomId H; exact (swallow_throw _ _ _ _ e H) |].
  split; [intros startDate endDate H; exact (swallow_throw _ _ _ _ e H) |].
  split; [intros startDate endDate H; exact (swallow_throw _ _ _ _ e H) |].
  split.
  { intros H. rewrite getContacts_eq.
    destruct (api plat env net "/contact" None None w) as [[v | e'] w']; simpl in *;
      [discriminate | reflexivity]. }
  split.
  { intros H. unfold getDashboardBundle, try_catch, bind, ret, throw, emit.
    destruct (api plat env net "/dashboard-bundle" None None w) as [[v | e'] w']; simpl in *;
      [discriminate | exact H]. }
  repeat match goal with |- _ /\ _ => split end;
    try (intros; apply swallow_never_throws).
  - intros w0. rewrite getContacts_eq.
    destruct (api plat env net "/contact" None None w0) as [[v | e'] w']; eauto.
  - intros id. apply getCctvStreamUrl_never_throws.
Qed.

Lemma getters_swallow_errors_witness :
  let w := fresh_world 0 in
  let e := new_Error "API request failed: 404 Not Found" in
  fst (getStats web_platform None net_unknown w) = Returned defaultStats
  /\ fst (getBuildings web_platform None net_unknown w) = Returned (JArr [])
  /\ fst (getRooms web_platform None net_unknown w) = Returned (JArr [])
  /\ fst (getCctvs web_platform None net_unknown w) = Returned (JArr [])
  /\ fst (getCctvsByRoom web_platform None net_unknown "12" w) = Returned (JArr [])
  /\ fst (getProductionTrends web_platform None net_unknown (Some "2024-01-01") None w) = Returned (JArr [])
  /\ fst (getUnitPerformance web_platform None net_unknown None (Some "2024-02-01") w) = Returned (JArr [])
  /\ fst (getContacts web_platform None net_unknown w) = Returned (JArr [])
  /\ fst (getDashboardBundle web_platform None net_unknown w) = Threw e.
Proof.
  intros w e.
  destruct (getters_swallow_errors web_platform None net_unknown w e)
    as (H1 & H2 & H3 & H4 & H5 & H6 & H7 & H8 & H9 & _).
  split; [exact (H1 eq_refl) |].
  split; [exact (H2 eq_refl) |].
  split; [exact (H3 eq_refl) |].
  split; [exact (H4 eq_refl) |].
  split; [exact (H5 "12" eq_refl) |].
  split; [exact (H6 (Some "2024-01-01") None eq_refl) |].
  split; [exact (H7 None (Some "2024-02-01") eq_refl) |].
  split; [exact (H8 eq_refl) | exact (H9 eq_refl)].
Defined.

(** * Proofs: the stream engine *)

(** ** C6: one worker per source *)

Lemma supervisor_inv_init sources : supervisor_inv (supervisor_init sources).
Proof. intros pid sid H. simpl in H. rewrite lookup_empty in H. discriminate. Qed.

Lemma ensure_worker_inv sid now ok s :
  supervisor_inv s -> supervisor_inv (snd (ensure_worker sid now ok s)).
Proof.
  intros Hinv. unfold ensure_worker.
  destruct (decide (sid ∈ registry s)); [| exact Hinv].
  destruct (workers s !! sid) as [w |] eqn:Hw; [exact Hinv |].
  destruct ok; [| exact Hinv].
  intros pid sid' Hp. simpl in *.
  destruct (decide (next_handle s = pid)) as [Heq | Hne].
  - subst pid. rewrite lookup_insert_eq in Hp. inversion Hp; subst sid'.
    rewrite lookup_insert_eq. eauto.
  - rewrite lookup_insert_ne in Hp by exact Hne.
    destruct (Hinv pid sid' Hp) as (w0 & Hw0 & Hh).
    exists w0. split; [| exact Hh].
    rewrite lookup_insert_ne; [exact Hw0 |]. intros ->. congruence.
Qed.

Lemma stop_worker_inv sid s : supervisor_inv s -> supervisor_inv (stop_worker sid s).
Proof.
  intros Hinv. unfold stop_worker.
  destruct (workers s !! sid) as [w |] eqn:Hw; [| exact Hinv].
  intros pid sid' Hp. simpl in *.
  destruct (decide (handle w = pid)) as [Heq | Hne].
  - subst pid. rewrite lookup_delete_eq in Hp. discriminate.
  - rewrite lookup_delete_ne in Hp by exact Hne.
    destruct (Hinv pid sid' Hp) as (w0 & Hw0 & Hh).
    exists w0. split; [| exact Hh].
    rewrite lookup_delete_ne; [exact Hw0 |]. intros ->. congruence.
Qed.

Lemma on_process_exit_inv pid s :
  supervisor_inv s -> supervisor_inv (on_process_exit pid s).
Proof.
  intros Hinv. unfold on_process_exit.
  destruct (processes s !! pid) as [sid |] eqn:Hpid; [| exact Hinv].
  intros pid' sid' Hp. simpl in *.
  destruct (decide (pid = pid')) as [Heq | Hne].
  - subst pid'. rewrite lookup_delete_eq in Hp. discriminate.
  - rewrite lookup_delete_ne in Hp by exact Hne.
    destruct (Hinv pid' sid' Hp) as (w0 & Hw0 & Hh).
    exists w0. split; [| exact Hh].
    rewrite lookup_delete_ne; [exact Hw0 |]. intros ->.
    destruct (Hinv pid sid' Hpid) as (w1 & Hw1 & Hh1). congruence.
Qed.

Lemma stop_workers_inv removed s :
  supervisor_inv s ->
  supervisor_inv (fold_left (fun acc sid => stop_worker sid acc) removed s).
Proof.
  revert s. induction removed as [| sid removed IH]; intros s Hinv; [exact Hinv |].
  simpl. apply IH, stop_worker_inv, Hinv.
Qed.

Lemma supervisor_step_inv s op : supervisor_inv s -> supervisor_inv (supervisor_step s op).
Proof.
  intros Hinv. destruct op as [sid now ok | sid | pid | added removed]; simpl.
  - now apply ensure_worker_inv.
  - now apply stop_worker_inv.
  - now apply on_process_exit_inv.
  - exact (stop_workers_inv removed s Hinv).
Qed.

Lemma supervisor_run_inv ops s : supervisor_inv s -> supervisor_inv (supervisor_run ops s).
Proof.
  revert s. induction ops as [| op ops IH]; intros s Hinv; [exact Hinv |].
  simpl. apply IH, supervisor_step_inv, Hinv.
Qed.

(** A second call finds the worker the first one returned. *)
Lemma ensure_worker_again sid now ok s h s1 :
  ensure_worker sid now ok s = (inr h, s1) ->
  sid ∈ registry s1 /\ exists w, workers s1 !! sid = Some w /\ handle w = h.
Proof.
  unfold ensure_worker.
  destruct (decide (sid ∈ registry s)) as [Hin |]; [| discriminate].
  destruct (workers s !! sid) as [w |] eqn:Hw.
  - intros H. inversion H; subst. eauto.
  - destruct ok; [| discriminate]. intros H. inversion H; subst. simpl.
    split; [exact Hin |]. rewrite lookup_insert_eq. eauto.
Qed.

Lemma ensure_worker_live sid now ok s w :
  sid ∈ registry s -> workers s !! sid = Some w ->
  ensure_worker sid now ok s = (inr (handle w), s).
Proof.
  intros Hin Hw. unfold ensure_worker.
  destruct (decide (sid ∈ registry s)); [| contradiction]. now rewrite Hw.
Qed.

(** With a live worker, a storm changes nothing and every call gets its
    handle. *)
Lemma ensure_storm_live sid calls s w :
  sid ∈ registry s -> workers s !! sid = Some w ->
  ensure_storm sid calls s = (map (fun _ => inr (handle w)) calls, s).
Proof.
  intros Hin Hw. induction calls as [| [now ok] calls IH]; [reflexivity |].
  simpl. rewrite (ensure_worker_live sid now ok s w Hin Hw), IH. reflexivity.
Qed.

Lemma spawned_since_refl s : spawned_since s s = [].
Proof. unfold spawned_since. apply drop_all. Qed.

(** A storm for one source creates at most one process. *)
Lemma ensure_storm_spawns sid calls s :
  (length (spawned_since s (snd (ensure_storm sid calls s))) <= 1)%nat.
Proof.
  induction calls as [| [now ok] calls IH]; simpl.
  - rewrite spawned_since_refl. simpl. lia.
  - destruct (ensure_worker sid now ok s) as [r s1] eqn:He.
    destruct (ensure_storm sid calls s1) as [rs s2] eqn:Hs. simpl.
    unfold ensure_worker in He.
    destruct (decide (sid ∈ registry s)) as [Hin |].
    + destruct (workers s !! sid) as [w |] eqn:Hw.
      * inversion He; subst. rewrite Hs in IH. exact IH.
      * destruct ok.
        -- inversion He; subst. clear He.
           erewrite ensure_storm_live in Hs;
             [| exact Hin | simpl; apply lookup_insert_eq].
           inversion Hs; subst. unfold spawned_since. simpl.
           rewrite drop_app_length. simpl. lia.
        -- inversion He; subst. rewrite Hs in IH. exact IH.
    + inversion He; subst. rewrite Hs in IH. exact IH.
Qed.

Lemma ensure_storm_first sid calls s :
  sid ∈ registry s -> workers s !! sid = None ->
  calls <> [] -> Forall (fun c => snd c = true) calls ->
  let run := ensure_storm sid calls s in
  spawned_since s (snd run) = [(next_handle s, sid)]
  /\ fst run = map (fun _ => inr (next_handle s)) calls.
Proof.
  intros Hin Hw Hne Hok. destruct calls as [| [now ok] calls]; [contradiction |].
  inversion Hok as [| c cs Hc Hcs]; subst. simpl in Hc. subst ok.
  cbv zeta. simpl. unfold ensure_worker.
  destruct (decide (sid ∈ registry s)); [| contradiction]. rewrite Hw.
  erewrite ensure_storm_live; [| exact Hin | simpl; apply lookup_insert_eq].
  simpl. unfold spawned_since. simpl. rewrite drop_app_length. auto.
Qed.

(** C6.  In every state the supervisor can reach, two live processes for
    one source are the same process; a call of [ensure_worker] that follows
    a successful one returns the same handle and changes nothing; and a
    storm of calls for one source creates at most one process, exactly one
    (whose handle every call returns) when the source is registered, had
    no worker and its spawn succeeds. *)
Theorem one_worker_per_source :
  (forall sources ops sid p1 p2,
      let s := supervisor_run ops (supervisor_init sources) in
      processes s !! p1 = Some sid -> processes s !! p2 = Some sid -> p1 = p2)
  /\ (forall sid now ok s h s1,
        ensure_worker sid now ok s = (inr h, s1) ->
        forall now' ok', ensure_worker sid now' ok' s1 = (inr h, s1))
  /\ (forall sid calls s,
        let run := ensure_storm sid calls s in
        (length (spawned_since s (snd run)) <= 1)%nat
        /\ (sid ∈ registry s -> workers s !! sid = None ->
            calls <> [] -> Forall (fun c => snd c = true) calls ->
            spawned_since s (snd run) = [(next_handle s, sid)]
            /\ fst run = map (fun _ => inr (next_handle s)) calls)).
Proof.
  split; [| split].
  - intros sources ops sid p1 p2 s H1 H2.
    assert (Hinv : supervisor_inv s)
      by apply supervisor_run_inv, supervisor_inv_init.
    destruct (Hinv p1 sid H1) as (w1 & Hw1 & Hh1).
    destruct (Hinv p2 sid H2) as (w2 & Hw2 & Hh2).
    congruence.
  - intros sid now ok s h s1 He now' ok'.
    destruct (ensure_worker_again sid now ok s h s1 He) as (Hin & w & Hw & <-).
    now apply ensure_worker_live.
  - intros sid calls s run. split.
    + apply ensure_storm_spawns.
    + intros Hin Hw Hne Hok. now apply ensure_storm_first.
Qed.

Lemma one_worker_per_source_witness :
  let s0 := supervisor_init {[ "cam1"; "cam2" ]} in
  let calls := [(0, true); (5, true); (9, true)] in
  (0%nat = 0%nat)
  /\ ensure_worker "cam1" 7 true (snd (ensure_worker "cam1" 0 true s0))
     = (inr 0%nat, snd (ensure_worker "cam1" 0 true s0))
  /\ spawned_since s0 (snd (ensure_storm "cam1" calls s0)) = [(0%nat, "cam1")]
  /\ fst (ensure_storm "cam1" calls s0) = [inr 0%nat; inr 0%nat; inr 0%nat].
Proof.
  intros s0 calls.
  destruct one_worker_per_source as (Hone & Hagain & Hstorm).
  split; [| split].
  - apply (Hone {[ "cam1"; "cam2" ]}
             [OpEnsure "cam1" 0 true; OpEnsure "cam2" 1 true; OpEnsure "cam1" 2 true]
             "cam1" 0%nat 0%nat); vm_compute; reflexivity.
  - apply (Hagain "cam1" 0 true s0 0%nat (snd (ensure_worker "cam1" 0 true s0))).
    vm_compute. reflexivity.
  - apply (proj2 (Hstorm "cam1" calls s0)).
    + vm_compute. reflexivity.
    + vm_compute. reflexivity.
    + discriminate.
    + repeat constructor.
Defined.

(** ** C7: the manifest and the files it names *)

Lemma empty_area_inv : area_inv empty_area.
Proof.
  split; simpl; try set_solver. apply NoDup_nil_2.
Qed.

Lemma write_chunk_inv a : area_inv a -> area_inv (write_chunk a).
Proof.
  intros [Hs Hn Hu Hao Hco Hg Hdo].
  assert (Hfresh : next_seq a ∉ (manifest a ++ unpublished a)%list).
  { intros Hin. apply Hs, Hco in Hin. lia. }
  split; simpl.
  - intros n Hin. rewrite app_assoc in Hin. apply elem_of_union.
    apply elem_of_app in Hin as [Hin | Hin]; [left; exact (Hs n Hin) |].
    right. apply list_elem_of_singleton in Hin. subst n. now apply elem_of_singleton.
  - rewrite app_assoc. apply NoDup_app. split; [exact Hn |].
    split; [| apply NoDup_singleton].
    intros n Hin Hin'. apply list_elem_of_singleton in Hin'. subst n. contradiction.
  - intros n Hin Hin'. rewrite app_assoc in Hin'.
    apply elem_of_app in Hin' as [Hin' | Hin'].
    + exact (Hu n Hin Hin').
    + apply list_elem_of_singleton in Hin'. subst n. apply Hao in Hin. lia.
  - intros n Hin. apply Hao in Hin. lia.
  - intros n Hin. apply elem_of_union in Hin as [Hin | Hin].
    + apply Hco in Hin. lia.
    + apply elem_of_singleton in Hin. lia.
  - intros n Hin Hin'. apply elem_of_union in Hin' as [Hin' | Hin'].
    + exact (Hg n Hin Hin').
    + apply elem_of_singleton in Hin'. subst n. apply Hdo in Hin. lia.
  - intros n Hin. apply Hdo in Hin. lia.
Qed.

Lemma rewrite_manifest_inv window a : area_inv a -> area_inv (rewrite_manifest window a).
Proof.
  intros [Hs Hn Hu Hao Hco Hg Hdo].
  set (listed := (manifest a ++ unpublished a)%list) in *.
  set (k := (length listed - window)%nat).
  assert (Hsplit : (take k listed ++ drop k listed)%list = listed) by apply take_drop.
  assert (Hn' : NoDup (take k listed ++ drop k listed)%list) by now rewrite Hsplit.
  apply NoDup_app in Hn' as (Hnt & Hdisj & Hnd).
  assert (Hdrop : forall n, n ∈ drop k listed -> n ∈ listed).
  { intros n Hin. rewrite <- Hsplit. apply elem_of_app. now right. }
  assert (Htake : forall n, n ∈ take k listed -> n ∈ listed).
  { intros n Hin. rewrite <- Hsplit. apply elem_of_app. now left. }
  unfold rewrite_manifest. fold listed. fold k.
  split; simpl; rewrite ?app_nil_r.
  - intros n Hin. apply Hs, Hdrop, Hin.
  - exact Hnd.
  - intros n Hin Hin'. apply elem_of_app in Hin as [Hin | Hin].
    + exact (Hu n Hin (Hdrop n Hin')).
    + exact (Hdisj n Hin Hin').
  - intros n Hin. apply elem_of_app in Hin as [Hin | Hin].
    + exact (Hao n Hin).
    + apply Hco, Hs, Htake, Hin.
  - exact Hco.
  - exact Hg.
  - exact Hdo.
Qed.

Lemma delete_aged_inv a : area_inv a -> area_inv (delete_aged a).
Proof.
  intros [Hs Hn Hu Hao Hco Hg Hdo].
  split; simpl.
  - intros n Hin. apply elem_of_difference. split; [exact (Hs n Hin) |].
    intros Hin'. apply elem_of_list_to_set in Hin'. exact (Hu n Hin' Hin).
  - exact Hn.
  - intros n Hin. apply elem_of_nil in Hin. destruct Hin.
  - intros n Hin. apply elem_of_nil in Hin. destruct Hin.
  - intros n Hin. apply elem_of_difference in Hin as [Hin _]. exact (Hco n Hin).
  - intros n Hin Hin'. apply elem_of_difference in Hin' as [Hc Hna].
    apply elem_of_union in Hin as [Hin | Hin]; [exact (Hg n Hin Hc) | contradiction].
  - intros n Hin. apply elem_of_union in Hin as [Hin | Hin]; [exact (Hdo n Hin) |].
    apply elem_of_list_to_set in Hin. exact (Hao n Hin).
Qed.

Lemma purge_manifest_inv a : area_inv a -> area_inv (purge_manifest a).
Proof.
  intros [Hs Hn Hu Hao Hco Hg Hdo].
  split; simpl.
  - intros n Hin. apply elem_of_nil in Hin. destruct Hin.
  - apply NoDup_nil_2.
  - intros n _ Hin. apply elem_of_nil in Hin. destruct Hin.
  - intros n Hin. apply elem_of_elements in Hin. exact (Hco n Hin).
  - exact Hco.
  - exact Hg.
  - exact Hdo.
Qed.

Lemma area_step_inv window a op : area_inv a -> area_inv (area_step window a op).
Proof.
  intros Hinv. destruct op; simpl.
  - now apply write_chunk_inv.
  - now apply rewrite_manifest_inv.
  - now apply delete_aged_inv.
  - now apply purge_manifest_inv.
Qed.

Lemma store_steps_inv window ops (st : gmap string Area) :
  (forall sid a, st !! sid = Some a -> area_inv a) ->
  forall sid a, fold_left (store_step window) ops st !! sid = Some a -> area_inv a.
Proof.
  revert st. induction ops as [| [src op] ops IH]; intros st Hst; [exact Hst |].
  simpl. apply IH. intros sid a Hl. unfold store_step in Hl. simpl in Hl.
  destruct (decide (src = sid)) as [Heq | Hne].
  - subst sid. rewrite lookup_insert_eq in Hl. inversion Hl; subst a.
    apply area_step_inv.
    destruct (st !! src) as [a0 |] eqn:Ha; simpl; [exact (Hst src a0 Ha) | apply empty_area_inv].
  - rewrite lookup_insert_ne in Hl by exact Hne. exact (Hst sid a Hl).
Qed.

(** C7.  In every state the segment store can reach, through any
    interleaving of segment writes, manifest rewrites, deletions and purges
    on any sources, every segment a manifest references has its file in
    storage and was never deleted; and a segment whose file is about to be
    deleted is one the manifest has already stopped referencing. *)
Theorem manifest_references_stored window ops sid a n :
  store_run window ops !! sid = Some a ->
  (n ∈ manifest a -> n ∈ chunks a /\ n ∉ deleted a)
  /\ (n ∈ aged a -> n ∉ manifest a).
Proof.
  intros Hl.
  assert (Hinv : area_inv a).
  { refine (store_steps_inv window ops ∅ _ sid a Hl).
    intros sid' a' H. rewrite lookup_empty in H. discriminate. }
  destruct Hinv as [Hs Hn Hu Hao Hco Hg Hdo]. split.
  - intros Hin.
    assert (Hc : n ∈ chunks a) by (apply Hs, elem_of_app; now left).
    split; [exact Hc |]. intros Hd. exact (Hg n Hd Hc).
  - intros Hin Hm. apply (Hu n Hin), elem_of_app. now left.
Qed.

Lemma manifest_references_stored_witness :
  let ops := (add_segment "cam1" ++ add_segment "cam2" ++ add_segment "cam1"
              ++ [("cam1", WriteChunk); ("cam1", RewriteManifest)])%list in
  let a := default empty_area (store_run 2 ops !! "cam1") in
  manifest a = [1%nat; 2%nat] /\ aged a = [0%nat]
  /\ (1%nat ∈ chunks a /\ 1%nat ∉ deleted a)
  /\ 0%nat ∉ manifest a.
Proof.
  intros ops a.
  split; [vm_compute; reflexivity |].
  split; [vm_compute; reflexivity |].
  split.
  - apply (proj1 (manifest_references_stored 2 ops "cam1" a 1%nat
                    ltac:(vm_compute; reflexivity))).
    apply list_elem_of_In. vm_compute. auto.
  - apply (proj2 (manifest_references_stored 2 ops "cam1" a 0%nat
                    ltac:(vm_compute; reflexivity))).
    apply list_elem_of_In. vm_compute. auto.
Defined.

(** * Proofs: more of the client *)

(** ** Requests and time *)

Lemma cache_check_fresh_hit env ep o w :
  fst (cache_check env ep o w)
  = Returned (if fresh_hit env ep o w
              then data <$> apiCache w !! cache_key env ep o
              else None).
Proof.
  unfold cache_check, fresh_hit. js_unfold.
  destruct (is_get o); simpl; [| reflexivity].
  destruct (negb (skip_cache o)); simpl; [| reflexivity].
  destruct (apiCache w !! cache_key env ep o) as [c |]; simpl; [| reflexivity].
  destruct (clock w - timestamp c <? CACHE_TTL); reflexivity.
Qed.

Lemma fresh_hit_entry env ep o w :
  fresh_hit env ep o w = true ->
  exists c, apiCache w !! cache_key env ep o = Some c
            /\ clock w - timestamp c < CACHE_TTL.
Proof.
  unfold fresh_hit. intros H.
  apply andb_prop in H as [_ H].
  destruct (apiCache w !! cache_key env ep o) as [c |]; [| discriminate].
  exists c. split; [reflexivity |]. now apply Z.ltb_lt.
Qed.

Lemma fetches_app (a b : list Event) : fetches (a ++ b) = (fetches a ++ fetches b)%list.
Proof. unfold fetches. apply filter_app. Qed.

(** The events of one call: its entry, and the request when the cache does
    not answer and the [config] gets built. *)
Lemma api_events plat env net ep options t w :
  let o := default empty_init options in
  let tm := default 30000 t in
  exists rest,
    events_since w (snd (api plat env net ep options t w))
    = (if fresh_hit env ep o w || negb (config_built plat o tm) then [EvCall ep tm]
       else EvCall ep tm :: EvFetch (request_url env ep) (build_config o tm) :: rest)
    /\ fetches rest = [] /\ schedule rest = [].
Proof.
  intros o tm. rewrite api_unfold. cbv zeta. fold o tm.
  rewrite cache_check_logged, cache_check_fresh_hit.
  destruct (fresh_hit env ep o w) eqn:Hf; cbn [orb].
  - destruct (fresh_hit_entry env ep o w Hf) as (c & Hc & _). rewrite Hc. simpl.
    exists []. split; [| split; reflexivity].
    apply events_since_app. reflexivity.
  - destruct (config_built plat o tm); cbn [negb].
    + destruct (request_trace env net ep o tm (logged (EvCall ep tm) w))
        as (rest & Ht & Hfe & Hs).
      exists rest. split; [| split; assumption].
      apply events_since_app. rewrite Ht, trace_logged, <- app_assoc. reflexivity.
    + exists []. split; [| split; reflexivity].
      apply events_since_app. reflexivity.
Qed.

(** The requests of one call. *)
Lemma api_fetches plat env net ep options t w :
  let o := default empty_init options in
  let tm := default 30000 t in
  fetches (events_since w (snd (api plat env net ep options t w)))
  = (if fresh_hit env ep o w || negb (config_built plat o tm) then []
     else [EvFetch (request_url env ep) (build_config o tm)]).
Proof.
  intros o tm.
  destruct (api_events plat env net ep options t w) as (rest & He & Hf & _).
  cbv zeta in He. fold o tm in He. rewrite He.
  destruct (fresh_hit env ep o w || negb (config_built plat o tm)); [reflexivity |].
  match goal with
  | |- fetches (?c :: ?f :: rest) = _ => change (fetches (c :: f :: rest)) with (f :: fetches rest)
  end.
  now rewrite Hf.
Qed.

(** X1.  A call of [api] issues no request when a GET without [skipCache]
    finds an entry younger than 5000 ms, nor when the [config] cannot be
    built because [AbortSignal.timeout] refuses [timeoutMs]; in every other
    case it issues exactly one request, with the [config] it built, and
    never more. *)
Theorem api_one_request plat env net ep options t w :
  let o := default empty_init options in
  let tm := default 30000 t in
  fetches (events_since w (snd (api plat env net ep options t w)))
  = (if fresh_hit env ep o w || negb (config_built plat o tm) then []
     else [EvFetch (request_url env ep) (build_config o tm)]).
Proof.
  apply api_fetches.
Qed.

(** ** What [api] throws *)

(** The [catch] block either returns cached data or logs the error it
    caught and throws [rethrown] of it. *)
Lemma on_request_error_threw env ep o e w e' :
  fst (on_request_error env ep o e w) = Threw e' ->
  e' = rethrown e
  /\ snd (on_request_error env ep o e w) = logged (EvError "API request error:" e) w
  /\ (is_get o = true -> apiCache w !! cache_key env ep o = None).
Proof.
  unfold on_request_error, rethrown, logged. js_unfold.
  destruct (is_get o); simpl.
  - destruct (apiCache w !! cache_key env ep o) as [c |]; simpl; [discriminate |].
    destruct e as [name message | v]; simpl;
      [destruct (String.eqb name "AbortError" || includes message "timeout") |];
      simpl; intros H; inversion H; auto.
  - destruct e as [name message | v]; simpl;
      [destruct (String.eqb name "AbortError" || includes message "timeout") |];
      simpl; intros H; inversion H; repeat split; discriminate.
Qed.

(** A throwing call was refused its timeout signal before the [try], or
    went through the request and through the [catch] block without cached
    data. *)
Lemma api_threw plat env net ep options t w e' :
  let o := default empty_init options in
  let tm := default 30000 t in
  let w1 := logged (EvCall ep tm) w in
  fst (api plat env net ep options t w) = Threw e' ->
  if config_built plat o tm then
    exists e,
      fst (try_request env net ep o tm w1) = Threw e
      /\ e' = rethrown e
      /\ snd (api plat env net ep options t w)
         = logged (EvError "API request error:" e) (snd (try_request env net ep o tm w1))
      /\ (is_get o = true -> apiCache w !! cache_key env ep o = None)
  else e' = delay_refused plat tm /\ snd (api plat env net ep options t w) = w1.
Proof.
  intros o tm w1. rewrite api_unfold. cbv zeta. fold o tm w1.
  destruct (cache_check_returns env ep o w1) as [r Hr]. rewrite Hr.
  destruct r as [d |]; [discriminate |].
  destruct (config_built plat o tm).
  - pose proof (try_request_throw_cache env net ep o tm w1) as Hcache.
    unfold try_catch.
    destruct (try_request env net ep o tm w1) as [[v | e] w2]; simpl in *; [discriminate |].
    intros H. apply on_request_error_threw in H as (He & Hw & Hn).
    exists e. repeat split; auto.
    intros Hg. rewrite <- (Hcache e eq_refl) by reflexivity. auto.
  - cbn [fst snd]. intros H. injection H as <-. auto.
Qed.

(** A request that fails with nothing cached to fall back on makes [api]
    throw [rethrown] of the failure. *)
Lemma api_request_failed plat env net ep options t w e :
  let o := default empty_init options in
  let tm := default 30000 t in
  fresh_hit env ep o w = false ->
  config_built plat o tm = true ->
  fst (try_request env net ep o tm (logged (EvCall ep tm) w)) = Threw e ->
  (if is_get o then apiCache w !! cache_key env ep o else None) = None ->
  fst (api plat env net ep options t w) = Threw (rethrown e).
Proof.
  intros o tm Hf Hb Ht Hn. rewrite api_unfold. cbv zeta. fold o tm.
  rewrite cache_check_logged, cache_check_fresh_hit, Hf, Hb.
  set (w1 := logged (EvCall ep tm) w) in *.
  pose proof (try_request_throw_cache env net ep o tm w1 e Ht) as Hc.
  unfold try_catch.
  destruct (try_request env net ep o tm w1) as [[v | e0] w2]; cbn [fst snd] in *;
    [discriminate |].
  injection Ht as ->.
  destruct (on_request_error_throws env ep o e w2) as [e' He'].
  { rewrite Hc. exact Hn. }
  rewrite He'. apply on_request_error_threw in He' as (-> & _). reflexivity.
Qed.

Lemma rethrown_is_error e : exists name message, rethrown e = ThrownError name message.
Proof.
  destruct e as [name message | v]; simpl; [| unfold new_Error; eauto].
  destruct (String.eqb name "AbortError" || includes message "timeout");
    unfold new_Error; eauto.
Qed.

(** X2.  Whatever [api] throws is an [Error] instance; when its request
    fails with a thrown value that is no [Error] (and no cached data stands
    in), what [api] throws is the [Error] "Unknown API request error". *)
Theorem api_throws_errors_only plat env net ep options t w :
  let o := default empty_init options in
  let tm := default 30000 t in
  (forall e, fst (api plat env net ep options t w) = Threw e ->
             exists name message, e = ThrownError name message)
  /\ (forall v,
        fresh_hit env ep o w = false ->
        config_built plat o tm = true ->
        fst (try_request env net ep o tm (logged (EvCall ep tm) w)) = Threw (ThrownOther v) ->
        (if is_get o then apiCache w !! cache_key env ep o else None) = None ->
        fst (api plat env net ep options t w)
        = Threw (new_Error "Unknown API request error")).
Proof.
  intros o tm. split.
  - intros e H. apply api_threw in H. cbv zeta in H. fold o tm in H.
    destruct (config_built plat o tm).
    + destruct H as (e0 & _ & -> & _). apply rethrown_is_error.
    + destruct H as [-> _]. unfold delay_refused. eauto.
  - intros v Hf Hb Ht Hn.
    exact (api_request_failed plat env net ep options t w (ThrownOther v) Hf Hb Ht Hn).
Qed.

Lemma api_throws_errors_only_witness :
  (exists name message,
      delay_refused node_platform (-5) = ThrownError name message)
  /\ fst (api web_platform None (net_throws_value (JStr "ECONNRESET")) "/stats" None None
            (fresh_world 0))
     = Threw (new_Error "Unknown API request error").
Proof.
  split.
  - exact (proj1 (api_throws_errors_only node_platform None (net_ok JNull) "/stats" None
                    (Some (-5)) (fresh_world 0))
             (delay_refused node_platform (-5)) eq_refl).
  - exact (proj2 (api_throws_errors_only web_platform None
                    (net_throws_value (JStr "ECONNRESET")) "/stats" None None (fresh_world 0))
             (JStr "ECONNRESET") eq_refl eq_refl eq_refl eq_refl).
Defined.

(** X3.  When [api] throws after its request failed, the error the request
    failed with has been written to the console under "API request error:"
    as the last thing the call did, also when what is thrown is the timeout
    or the unknown error that replaces it.  When [api] throws because
    [AbortSignal.timeout] refused [timeoutMs], it throws that refusal as it
    is, before the [try]: no request was made and nothing was logged. *)
Theorem api_logs_cause plat env net ep options t w e' :
  let o := default empty_init options in
  let tm := default 30000 t in
  let run := api plat env net ep options t w in
  fst run = Threw e' ->
  if config_built plat o tm then
    exists e,
      fst (try_request env net ep o tm (logged (EvCall ep tm) w)) = Threw e
      /\ e' = rethrown e
      /\ last (trace (snd run)) = Some (EvError "API request error:" e)
  else
    e' = delay_refused plat tm /\ events_since w (snd run) = [EvCall ep tm].
Proof.
  intros o tm run H. apply api_threw in H. cbv zeta in H. fold o tm run in H.
  destruct (config_built plat o tm).
  - destruct H as (e & Ht & He & Hw & _).
    exists e. split; [exact Ht |]. split; [exact He |].
    rewrite Hw, trace_logged. apply last_snoc.
  - destruct H as [He Hw]. split; [exact He |].
    rewrite Hw. apply events_since_app. reflexivity.
Qed.

Lemma api_logs_cause_witness :
  last (trace (snd (api web_platform None net_silent "/stats" None (Some 1) (fresh_world 0))))
  = Some (EvError "API request error:"
            (ThrownError "AbortError" "The operation was aborted."))
  /\ events_since (fresh_world 0)
       (snd (api web_platform None (net_ok JNull) "/stats" None (Some (-5)) (fresh_world 0)))
     = [EvCall "/stats" (-5)].
Proof.
  split.
  - destruct (api_logs_cause web_platform None net_silent "/stats" None (Some 1)
                (fresh_world 0) (new_Error timeout_message) eq_refl) as (e & Ht & _ & Hl).
    vm_compute in Ht. inversion Ht; subst e. exact Hl.
  - exact (proj2 (api_logs_cause web_platform None (net_ok JNull) "/stats" None (Some (-5))
                    (fresh_world 0) (delay_refused web_platform (-5)) eq_refl)).
Defined.

(** X4.  For a call whose [config] gets built: a response that is not ok
    makes [api] throw the error "API request failed: <status> <statusText>",
    or the timeout error when that message contains "timeout" -- unless the
    call is a GET with a cache entry. *)
Theorem api_http_error plat env net ep options t w r :
  let o := default empty_init options in
  let tm := default 30000 t in
  fresh_hit env ep o w = false ->
  config_built plat o tm = true ->
  outcome (net (fetch_count w) (request_url env ep) (build_config o tm) (clock w))
  = Resolved r ->
  resp_ok r = false ->
  (if is_get o then apiCache w !! cache_key env ep o else None) = None ->
  fst (api plat env net ep options t w)
  = Threw (new_Error (if includes (http_error_message r) "timeout"
                      then timeout_message else http_error_message r)).
Proof.
  intros o tm Hf Hb Ho Hok Hn.
  assert (Htry : fst (try_request env net ep o tm (logged (EvCall ep tm) w))
                 = Threw (new_Error (http_error_message r))).
  { unfold try_request, send_request. js_unfold. simpl.
    rewrite fetch_count_logged_call, Ho. simpl. rewrite Hok. reflexivity. }
  rewrite (api_request_failed plat env net ep options t w _ Hf Hb Htry Hn).
  remember (http_error_message r) as msg eqn:Hmsg.
  unfold rethrown, new_Error.
  destruct (includes msg "timeout"); reflexivity.
Qed.

Lemma api_http_error_witness :
  fst (api web_platform None net_unavailable "/stats" None None (fresh_world 0))
  = Threw (new_Error "API request failed: 503 Service Unavailable").
Proof.
  exact (api_http_error web_platform None net_unavailable "/stats" None None (fresh_world 0)
           {| resp_ok := false; resp_status := 503; resp_statusText := "Service Unavailable";
              resp_json := Returned JNull |}
           eq_refl eq_refl eq_refl eq_refl eq_refl).
Defined.

Lemma get_prop_defined v k1 k2 x :
  get_prop v k1 = inr x -> exists y, get_prop v k2 = inr y.
Proof.
  destruct v; simpl; intros H; try discriminate; eauto.
Qed.

(** X5.  For a call whose [config] gets built: from an ok response whose
    JSON body is not [null], [api] returns the body's [data] (or
    [undefined] when it has none), whether or not the body's [success] is
    true. *)
Theorem api_returns_body_data plat env net ep options t w r result d :
  let o := default empty_init options in
  let tm := default 30000 t in
  fresh_hit env ep o w = false ->
  config_built plat o tm = true ->
  outcome (net (fetch_count w) (request_url env ep) (build_config o tm) (clock w))
  = Resolved r ->
  resp_ok r = true ->
  resp_json r = Returned result ->
  get_prop result "data" = inr d ->
  fst (api plat env net ep options t w) = Returned d.
Proof.
  intros o tm Hf Hb Ho Hok Hj Hd. rewrite api_unfold. cbv zeta. fold o tm.
  rewrite cache_check_logged, cache_check_fresh_hit, Hf, Hb.
  destruct (get_prop_defined result "data" "success" d Hd) as [sv Hs].
  unfold try_catch, try_request, send_request. js_unfold. simpl.
  rewrite fetch_count_logged_call, Ho. simpl. rewrite Hok. simpl. rewrite Hj. simpl.
  destruct (is_get o); simpl; [rewrite Hs; simpl; destruct (truthy sv); simpl |];
    rewrite Hd; reflexivity.
Qed.

Lemma api_returns_body_data_witness :
  let body := JObj [("success", JBool false); ("message", JStr "no"); ("data", JNum 9)] in
  fst (api web_platform None (fun _ _ _ _ => json_reply 20 body) "/stats" None None
         (fresh_world 0))
  = Returned (JNum 9).
Proof.
  intros body.
  exact (api_returns_body_data web_platform None (fun _ _ _ _ => json_reply 20 body)
           "/stats" None None (fresh_world 0)
           {| resp_ok := true; resp_status := 200; resp_statusText := "OK";
              resp_json := Returned body |}
           body (JNum 9) eq_refl eq_refl eq_refl eq_refl eq_refl eq_refl).
Defined.

(** ** The cache over a session *)

Lemma fresh_hit_false_miss env ep o w :
  fresh_hit env ep o w = false -> fst (cache_check env ep o w) = Returned None.
Proof. intros H. now rewrite cache_check_fresh_hit, H. Qed.

(** One call changes no entry but the one of its method and URL, and that
    one only for a GET. *)
Lemma api_cache_other plat env net ep options t w k :
  (is_get (default empty_init options) = true ->
   k <> cache_key env ep (default empty_init options)) ->
  apiCache (snd (api plat env net ep options t w)) !! k = apiCache w !! k.
Proof.
  intros Hk. rewrite api_cache_effect. cbv zeta.
  destruct (fst (cache_check env ep (default empty_init options) w)) as [[d |] | e];
    try reflexivity;
    (destruct (config_built plat _ _); [| reflexivity];
     destruct (is_get (default empty_init options)); [| reflexivity];
     cbn [andb];
     destruct (reply_success _); [| reflexivity];
     rewrite lookup_insert_ne; [reflexivity |]; intros Heq; now apply Hk).
Qed.

Lemma session_cons plat env net st steps w :
  session plat env net (st :: steps) w = session plat env net steps (session_step plat env net w st).
Proof. reflexivity. Qed.

Lemma session_entry_origin plat env net steps w k :
  is_Some (apiCache (session plat env net steps w) !! k) ->
  is_Some (apiCache w !! k)
  \/ exists ep options t,
       In (Call ep options t) steps
       /\ is_get (default empty_init options) = true
       /\ k = cache_key env ep (default empty_init options).
Proof.
  revert w. induction steps as [| st steps IH]; intros w Hk; [now left |].
  rewrite session_cons in Hk. apply IH in Hk as [Hk | (ep & o & t & Hin & Hg & ->)].
  - destruct st as [ep options t | ms]; simpl in Hk; [| now left].
    destruct (is_get (default empty_init options)) eqn:Hg.
    + destruct (decide (k = cache_key env ep (default empty_init options))) as [-> | Hne].
      * right. exists ep, options, t. split; [now left | auto].
      * left. rewrite api_cache_other in Hk; [exact Hk | auto].
    + left. rewrite api_cache_other in Hk; [exact Hk |]. intros Hg'. congruence.
  - right. exists ep, o, t. split; [now right | auto].
Qed.

(** X6.  Over any session that starts with an empty cache, every cache
    entry is keyed by the method and URL of a GET call the session made;
    and a single call touches no entry but the one of its own method and
    URL. *)
Theorem cache_entries_of_get_calls plat env net steps now :
  (forall k c,
      apiCache (session plat env net steps (fresh_world now)) !! k = Some c ->
      exists ep options t,
        In (Call ep options t) steps
        /\ is_get (default empty_init options) = true
        /\ k = cache_key env ep (default empty_init options))
  /\ (forall ep options t w k,
        k <> cache_key env ep (default empty_init options) ->
        apiCache (snd (api plat env net ep options t w)) !! k = apiCache w !! k).
Proof.
  split.
  - intros k c Hk.
    destruct (session_entry_origin plat env net steps (fresh_world now) k) as [Hs | H];
      [rewrite Hk; eauto | | exact H].
    simpl in Hs. rewrite lookup_empty in Hs. destruct Hs as [x Hx]. discriminate.
  - intros ep options t w k Hk. apply api_cache_other. auto.
Qed.

Lemma cache_entries_of_get_calls_witness :
  let steps := [Call "/stats" None None; Wait 100;
                Call "/contact" (Some (method_init "POST")) None] in
  (exists ep options t,
      In (Call ep options t) steps
      /\ is_get (default empty_init options) = true
      /\ "GET:http://127.0.0.1:8000/api/stats"
         = cache_key None ep (default empty_init options))
  /\ apiCache (snd (api web_platform None (net_ok (JNum 1)) "/stats" None None (fresh_world 0)))
       !! "GET:http://127.0.0.1:8000/api/rooms"
     = apiCache (fresh_world 0) !! "GET:http://127.0.0.1:8000/api/rooms".
Proof.
  intros steps. split.
  - apply (proj1 (cache_entries_of_get_calls web_platform None (net_ok (JNum 1)) steps 0)
             "GET:http://127.0.0.1:8000/api/stats" {| data := JNum 1; timestamp := 35 |}).
    vm_compute. reflexivity.
  - apply (proj2 (cache_entries_of_get_calls web_platform None (net_ok (JNum 1)) steps 0)).
    vm_compute. discriminate.
Defined.

(** X7.  After a GET without [skipCache] whose [config] got built has
    fetched a successful result, the same call made again less than 5000 ms
    after the response arrived, with the entry still in place, returns the
    same data and issues no request. *)
Theorem api_repeat_within_ttl plat env net ep options t w d w2 :
  let o := default empty_init options in
  let tm := default 30000 t in
  let reply := net (fetch_count w) (request_url env ep) (build_config o tm) (clock w) in
  let run := api plat env net ep options t w in
  is_get o = true -> skip_cache o = false ->
  fresh_hit env ep o w = false ->
  config_built plat o tm = true ->
  reply_success reply = Some d ->
  apiCache w2 !! cache_key env ep o = apiCache (snd run) !! cache_key env ep o ->
  clock w2 - (clock w + took reply) < 5000 ->
  fst run = Returned d
  /\ api plat env net ep options t w2 = (Returned d, logged (EvCall ep tm) w2).
Proof.
  intros o tm reply run Hg Hs Hf Hb Hd Hsame Hsoon.
  pose proof (fresh_hit_false_miss env ep o w Hf) as Hmiss.
  assert (Hentry : apiCache (snd run) !! cache_key env ep o
                   = Some {| data := d; timestamp := clock w + took reply |}).
  { unfold run. rewrite api_cache_effect. cbv zeta. fold o tm reply.
    rewrite Hmiss, Hb, Hg, Hd. apply lookup_insert_eq. }
  split.
  - unfold run. rewrite api_unfold. cbv zeta. fold o tm.
    rewrite cache_check_logged, Hmiss, Hb. unfold try_catch.
    pose proof (try_request_success env net ep o tm (logged (EvCall ep tm) w) d) as Hok.
    rewrite fetch_count_logged_call in Hok. specialize (Hok Hd).
    destruct (try_request env net ep o tm (logged (EvCall ep tm) w)) as [[v | e] w'];
      simpl in *; congruence.
  - rewrite api_unfold. cbv zeta. fold o tm. rewrite cache_check_logged.
    rewrite (cache_check_fresh env ep o w2 {| data := d; timestamp := clock w + took reply |});
      auto.
    rewrite Hsame. exact Hentry.
Qed.

Lemma api_repeat_within_ttl_witness :
  let net := net_then_silent (JNum 3) in
  let w1 := snd (api web_platform None net "/stats" None None (fresh_world 0)) in
  fst (api web_platform None net "/stats" None None (fresh_world 0)) = Returned (JNum 3)
  /\ api web_platform None net "/stats" None None (later 4999 w1)
     = (Returned (JNum 3), logged (EvCall "/stats" 30000) (later 4999 w1)).
Proof.
  intros net w1.
  apply (api_repeat_within_ttl web_platform None net "/stats" None None (fresh_world 0) (JNum 3)
           (later 4999 w1)); vm_compute; reflexivity.
Defined.

(** ** More on getCctvStreamUrl *)

Lemma api_extends plat env net ep options t w :
  trace (snd (api plat env net ep options t w))
  = (trace w ++ events_since w (snd (api plat env net ep options t w)))%list.
Proof.
  destruct (api_trace plat env net ep options t w) as (tail & Ht & _).
  now rewrite (events_since_app _ _ _ Ht).
Qed.

(** The events of a whole run: those of the attempts made, a timer between
    two of them, the console error after the third failure. *)
Lemma stream_events plat env net cctvId w :
  let ep := stream_endpoint cctvId in
  let a1 := api plat env net ep (Some empty_init) (Some 12000) w in
  let a2 := api plat env net ep (Some empty_init) (Some 15000) (paused plat 750 (snd a1)) in
  let a3 := api plat env net ep (Some empty_init) (Some 20000) (paused plat 750 (snd a2)) in
  let E1 := events_since w (snd a1) in
  let E2 := events_since (paused plat 750 (snd a1)) (snd a2) in
  let E3 := events_since (paused plat 750 (snd a2)) (snd a3) in
  events_since w (snd (getCctvStreamUrl plat env net cctvId w))
  = match fst a1 with
    | Returned _ => E1
    | Threw _ =>
        match fst a2 with
        | Returned _ => E1 ++ [EvTimer 750] ++ E2
        | Threw _ =>
            match fst a3 with
            | Returned _ => E1 ++ [EvTimer 750] ++ E2 ++ [EvTimer 750] ++ E3
            | Threw e =>
                E1 ++ [EvTimer 750] ++ E2 ++ [EvTimer 750] ++ E3
                ++ [EvError (stream_error_label cctvId) e]
            end
        end
    end%list.
Proof.
  intros ep a1 a2 a3 E1 E2 E3. rewrite stream_run. cbv zeta. fold ep a1 a2 a3.
  pose proof (api_extends plat env net ep (Some empty_init) (Some 12000) w) as H1.
  pose proof (api_extends plat env net ep (Some empty_init) (Some 15000) (paused plat 750 (snd a1)))
    as H2.
  pose proof (api_extends plat env net ep (Some empty_init) (Some 20000) (paused plat 750 (snd a2)))
    as H3.
  fold a1 E1 in H1. fold a2 E2 in H2. fold a3 E3 in H3.
  rewrite trace_paused in H2, H3. rewrite H1 in H2. rewrite H2 in H3.
  destruct (fst a1); cbn [snd]; [reflexivity |].
  destruct (fst a2); cbn [snd].
  { apply events_since_app. rewrite H2. now rewrite <- !app_assoc. }
  destruct (fst a3); cbn [snd]; apply events_since_app.
  - rewrite H3. now rewrite <- !app_assoc.
  - rewrite trace_logged, H3. now rewrite <- !app_assoc.
Qed.

(** X9.  With a cache entry of any age for the camera's stream endpoint,
    [getCctvStreamUrl] makes a single attempt and returns: the entry's data
    when the request fails.  Retries, pauses and the empty result only
    occur while nothing is cached for the camera. *)
Theorem getCctvStreamUrl_warm_cache plat env net cctvId w c :
  let ep := stream_endpoint cctvId in
  let run := getCctvStreamUrl plat env net cctvId w in
  apiCache w !! cache_key env ep empty_init = Some c ->
  schedule (events_since w (snd run)) = [Attempt 12000]
  /\ (exists v, fst run = Returned v)
  /\ (forall e,
        fst (try_request env net ep empty_init 12000 (logged (EvCall ep 12000) w)) = Threw e ->
        fst run = Returned (data c)).
Proof.
  intros ep run Hc.
  destruct (api_get_with_entry plat env net ep (Some empty_init) (Some 12000) w c eq_refl
              (config_built_32 plat empty_init 12000 ltac:(lia)) Hc)
    as [Hfail [v Hv]].
  cbv zeta in Hfail. cbn [default from_option id] in Hfail.
  unfold run. rewrite stream_schedule, stream_run. cbv zeta. fold ep.
  rewrite Hv. cbn [fst]. split; [reflexivity |]. split; [eauto |].
  intros e He. specialize (Hfail e He). congruence.
Qed.

Lemma getCctvStreamUrl_warm_cache_witness :
  let net := net_then_silent (JObj [("stream_url", JStr "/live/7/index.m3u8")]) in
  let w1 := later 60000 (snd (getCctvStreamUrl web_platform None net "7" (fresh_world 0))) in
  schedule (events_since w1 (snd (getCctvStreamUrl web_platform None net "7" w1))) = [Attempt 12000]
  /\ fst (getCctvStreamUrl web_platform None net "7" w1)
     = Returned (JObj [("stream_url", JStr "/live/7/index.m3u8")]).
Proof.
  intros net w1.
  destruct (getCctvStreamUrl_warm_cache web_platform None net "7" w1
              {| data := JObj [("stream_url", JStr "/live/7/index.m3u8")];
                 timestamp := 35 |}
              ltac:(vm_compute; reflexivity)) as (Hs & _ & Hf).
  split; [exact Hs |].
  apply (Hf (ThrownError "AbortError" "The operation was aborted.")).
  vm_compute. reflexivity.
Defined.

Lemma sublist_one_of {A : Type} (l : list A) (x : A) :
  l = [] \/ l = [x] -> sublist l [x].
Proof. intros [-> | ->]; [apply sublist_nil_l | reflexivity]. Qed.

Lemma api_fetches_sublist plat env net ep t w :
  sublist (fetches (events_since w (snd (api plat env net ep (Some empty_init) (Some t) w))))
          [EvFetch (request_url env ep) (build_config empty_init t)].
Proof.
  rewrite api_fetches. cbn [default from_option id]. apply sublist_one_of.
  destruct (fresh_hit env ep empty_init w || negb (config_built plat empty_init t)); auto.
Qed.

(** X10.  The requests a run of [getCctvStreamUrl] sends are, in order,
    some of three: GETs of the camera's stream endpoint that carry the
    timeout signals of 12000, 15000 and 20000 ms.  It sends no other
    request and none of them twice. *)
Theorem getCctvStreamUrl_requests plat env net cctvId w :
  sublist (fetches (events_since w (snd (getCctvStreamUrl plat env net cctvId w))))
          (map (stream_request env cctvId) attempts).
Proof.
  rewrite stream_events. cbv zeta.
  set (ep := stream_endpoint cctvId).
  set (a1 := api plat env net ep (Some empty_init) (Some 12000) w).
  set (a2 := api plat env net ep (Some empty_init) (Some 15000) (paused plat 750 (snd a1))).
  set (a3 := api plat env net ep (Some empty_init) (Some 20000) (paused plat 750 (snd a2))).
  pose proof (api_fetches_sublist plat env net ep 12000 w) as S1.
  pose proof (api_fetches_sublist plat env net ep 15000 (paused plat 750 (snd a1))) as S2.
  pose proof (api_fetches_sublist plat env net ep 20000 (paused plat 750 (snd a2))) as S3.
  fold a1 in S1. fold a2 in S2. fold a3 in S3.
  set (f1 := EvFetch (request_url env ep) (build_config empty_init 12000)) in *.
  set (f2 := EvFetch (request_url env ep) (build_config empty_init 15000)) in *.
  set (f3 := EvFetch (request_url env ep) (build_config empty_init 20000)) in *.
  change (map (stream_request env cctvId) attempts) with [f1; f2; f3].
  assert (Hno : forall ms, fetches [EvTimer ms] = []) by reflexivity.
  assert (Hne : forall l e, fetches [EvError l e] = []) by reflexivity.
  destruct (fst a1).
  { apply (sublist_app _ [f1] [] [f2; f3]) in S1; [| apply sublist_nil_l].
    now rewrite app_nil_r in S1. }
  destruct (fst a2).
  { rewrite !fetches_app, Hno. cbn [app].
    apply (sublist_app _ [f1] _ [f2; f3]); [exact S1 |].
    apply (sublist_app _ [f2] [] [f3]) in S2; [| apply sublist_nil_l].
    now rewrite app_nil_r in S2. }
  destruct (fst a3); rewrite !fetches_app, ?Hno, ?Hne; cbn [app]; rewrite ?app_nil_r;
    (apply (sublist_app _ [f1] _ [f2; f3]); [exact S1 |];
     apply (sublist_app _ [f2] _ [f3]); [exact S2 | exact S3]).
Qed.

(** ** More on the getters *)

(** X11.  [getContacts] always returns an array, of at most one element.
    When the [api] call for "/contact" returns a value, the array holds
    exactly that value if it is truthy and is empty if it is falsy (such as
    [null]); when the call throws, the array is empty. *)
Theorem getContacts_array plat env net w :
  let call := api plat env net "/contact" None None w in
  (exists items,
      fst (getContacts plat env net w) = Returned (JArr items) /\ (length items <= 1)%nat)
  /\ (forall v, fst call = Returned v ->
                fst (getContacts plat env net w)
                = Returned (if truthy v then JArr [v] else JArr []))
  /\ (forall e, fst call = Threw e ->
                fst (getContacts plat env net w) = Returned (JArr [])).
Proof.
  intros call. unfold call. rewrite getContacts_eq.
  destruct (api plat env net "/contact" None None w) as [[v | e] w']; cbn [fst].
  - split; [| split].
    + destruct (truthy v); eexists; (split; [reflexivity | simpl; lia]).
    + intros v' Hv. injection Hv as <-. destruct (truthy v); reflexivity.
    + intros e He. discriminate He.
  - split; [| split].
    + exists []. split; [reflexivity | simpl; lia].
    + intros v Hv. discriminate Hv.
    + reflexivity.
Qed.

Lemma getContacts_array_witness :
  fst (getContacts web_platform None
         (net_ok (JObj [("id", JStr "1"); ("email", JStr "atcs@example.org")]))
         (fresh_world 0))
  = Returned (JArr [JObj [("id", JStr "1"); ("email", JStr "atcs@example.org")]])
  /\ fst (getContacts web_platform None (net_ok JNull) (fresh_world 0)) = Returned (JArr [])
  /\ fst (getContacts web_platform None net_unavailable (fresh_world 0)) = Returned (JArr []).
Proof.
  split; [| split].
  - exact (proj1 (proj2 (getContacts_array web_platform None
                           (net_ok (JObj [("id", JStr "1"); ("email", JStr "atcs@example.org")]))
                           (fresh_world 0)))
             (JObj [("id", JStr "1"); ("email", JStr "atcs@example.org")]) eq_refl).
  - exact (proj1 (proj2 (getContacts_array web_platform None (net_ok JNull) (fresh_world 0)))
             JNull eq_refl).
  - exact (proj2 (proj2 (getContacts_array web_platform None net_unavailable (fresh_world 0)))
             (new_Error "API request failed: 503 Service Unavailable") eq_refl).
Defined.

(** X12.  When the underlying [api] call throws, [getBuilding] and
    [getRoom] return the empty object and [getRoomsByBuilding] returns the
    empty array. *)
Theorem detail_getters_fallback plat env net w e :
  (forall id, fst (api plat env net ("/buildings/" +:+ id) None None w) = Threw e ->
              fst (getBuilding plat env net id w) = Returned (JObj []))
  /\ (forall id, fst (api plat env net ("/rooms/" +:+ id) None None w) = Threw e ->
                 fst (getRoom plat env net id w) = Returned (JObj []))
  /\ (forall id, fst (api plat env net ("/rooms/building/" +:+ id) None None w) = Threw e ->
                 fst (getRoomsByBuilding plat env net id w) = Returned (JArr [])).
Proof.
  split; [| split]; intros id H; exact (swallow_throw _ _ _ _ e H).
Qed.

Lemma detail_getters_fallback_witness :
  let w := fresh_world 0 in
  fst (getBuilding web_platform None net_unknown "3" w) = Returned (JObj [])
  /\ fst (getRoom web_platform None net_unknown "4" w) = Returned (JObj [])
  /\ fst (getRoomsByBuilding web_platform None net_unknown "3" w) = Returned (JArr []).
Proof.
  intros w.
  destruct (detail_getters_fallback web_platform None net_unknown w
              (new_Error "API request failed: 404 Not Found")) as (H1 & H2 & H3).
  split; [exact (H1 "3" eq_refl) |]. split; [exact (H2 "4" eq_refl) | exact (H3 "3" eq_refl)].
Defined.

Lemma swallow_schedule plat env net ep label fallback w :
  schedule (events_since w
              (snd (try_catch (response <- api plat env net ep None None ;; ret response)
                      (fun error => emit (EvError label error) ;;; ret fallback) w)))
  = [Attempt 30000].
Proof.
  rewrite swallow_eq.
  destruct (api_schedule plat env net ep None None w) as (evs & Ht & Hs).
  destruct (api plat env net ep None None w) as [[v | e] w']; cbn [snd] in *.
  - rewrite (events_since_app _ _ _ Ht). exact Hs.
  - rewrite (events_since_app w _ (evs ++ [EvError label e])).
    + rewrite schedule_app, Hs. reflexivity.
    + rewrite trace_logged, Ht, <- app_assoc. reflexivity.
Qed.

(** X13.  Every getter but [getCctvStreamUrl] calls [api] exactly once, with
    the default timeout of 30000 ms, and sets no timer: none of them
    retries. *)
Theorem getters_call_once plat env net w :
  let sched := fun (g : Js JsValue) => schedule (events_since w (snd (g w))) in
  sched (getStats plat env net) = [Attempt 30000]
  /\ sched (getBuildings plat env net) = [Attempt 30000]
  /\ sched (getRooms plat env net) = [Attempt 30000]
  /\ sched (getCctvs plat env net) = [Attempt 30000]
  /\ sched (getContacts plat env net) = [Attempt 30000]
  /\ sched (getDashboardBundle plat env net) = [Attempt 30000]
  /\ (forall id, sched (getBuilding plat env net id) = [Attempt 30000])
  /\ (forall id, sched (getRoom plat env net id) = [Attempt 30000])
  /\ (forall id, sched (getRoomsByBuilding plat env net id) = [Attempt 30000])
  /\ (forall id, sched (getCctvsByRoom plat env net id) = [Attempt 30000])
  /\ (forall s d, sched (getProductionTrends plat env net s d) = [Attempt 30000])
  /\ (forall s d, sched (getUnitPerformance plat env net s d) = [Attempt 30000]).
Proof.
  intros sched. unfold sched.
  assert (Hone : forall ep rest w',
            trace w' = (trace (snd (api plat env net ep None None w)) ++ rest)%list ->
            schedule rest = [] ->
            schedule (events_since w w') = [Attempt 30000]).
  { intros ep rest w' Hw Hr.
    destruct (api_schedule plat env net ep None None w) as (evs & Ht & Hs).
    rewrite (events_since_app w w' (evs ++ rest)).
    - rewrite schedule_app, Hs, Hr. reflexivity.
    - rewrite Hw, Ht, <- app_assoc. reflexivity. }
  repeat match goal with |- _ /\ _ => split end;
    try (intros; apply swallow_schedule).
  - rewrite getContacts_eq.
    destruct (api plat env net "/contact" None None w) as [[v | e] w'] eqn:Ha.
    + apply (Hone "/contact" []); [rewrite Ha, app_nil_r |]; reflexivity.
    + apply (Hone "/contact" [EvError "Error fetching contacts:" e]);
        [rewrite Ha |]; reflexivity.
  - unfold getDashboardBundle, try_catch, bind, ret, throw, emit.
    destruct (api plat env net "/dashboard-bundle" None None w) as [[v | e] w'] eqn:Ha.
    + apply (Hone "/dashboard-bundle" []); [rewrite Ha, app_nil_r |]; reflexivity.
    + apply (Hone "/dashboard-bundle" [EvError "Error fetching dashboard bundle:" e]);
        [rewrite Ha |]; reflexivity.
Qed.

(** X14.  Once a response for its endpoint is in the cache, a simple getter
    answers a failing request with the cached data, of whatever age: the
    defaults of [getStats] and [getCctvs] and the error of
    [getDashboardBundle] only show while nothing is cached. *)
Theorem getters_prefer_stale plat env net w c e :
  (apiCache w !! cache_key env "/stats" empty_init = Some c ->
   fst (try_request env net "/stats" empty_init 30000 (logged (EvCall "/stats" 30000) w))
   = Threw e ->
   fst (getStats plat env net w) = Returned (data c))
  /\ (apiCache w !! cache_key env "/cctvs" empty_init = Some c ->
      fst (try_request env net "/cctvs" empty_init 30000 (logged (EvCall "/cctvs" 30000) w))
      = Threw e ->
      fst (getCctvs plat env net w) = Returned (data c))
  /\ (apiCache w !! cache_key env "/dashboard-bundle" empty_init = Some c ->
      fst (try_request env net "/dashboard-bundle" empty_init 30000
             (logged (EvCall "/dashboard-bundle" 30000) w))
      = Threw e ->
      fst (getDashboardBundle plat env net w) = Returned (data c)).
Proof.
  assert (Hapi : forall ep,
            apiCache w !! cache_key env ep empty_init = Some c ->
            fst (try_request env net ep empty_init 30000 (logged (EvCall ep 30000) w))
            = Threw e ->
            fst (api plat env net ep None None w) = Returned (data c)).
  { intros ep Hc He.
    exact (proj1 (api_get_with_entry plat env net ep None None w c eq_refl
                    (config_built_32 plat empty_init 30000 ltac:(lia)) Hc) e He). }
  split; [| split]; intros Hc He; specialize (Hapi _ Hc He).
  - unfold getStats. rewrite swallow_eq.
    destruct (api plat env net "/stats" None None w) as [[v | e'] w']; cbn [fst] in *; congruence.
  - unfold getCctvs. rewrite swallow_eq.
    destruct (api plat env net "/cctvs" None None w) as [[v | e'] w']; cbn [fst] in *; congruence.
  - unfold getDashboardBundle, try_catch, bind, ret.
    destruct (api plat env net "/dashboard-bundle" None None w) as [[v | e'] w']; cbn [fst] in *;
      congruence.
Qed.

Lemma getters_prefer_stale_witness :
  let net := net_then_silent (JNum 3) in
  let w1 := later 60000 (snd (getStats web_platform None net (fresh_world 0))) in
  fst (getStats web_platform None net w1) = Returned (JNum 3).
Proof.
  intros net w1.
  apply (proj1 (getters_prefer_stale web_platform None net w1 {| data := JNum 3; timestamp := 35 |}
                  (ThrownError "AbortError" "The operation was aborted.")));
    vm_compute; reflexivity.
Defined.

(** ** The request [api] sends *)

(** X15.  The request [api] sends carries, for [headers] and
    [credentials], whatever the caller's options hold under that name as an
    own property: the caller's headers exactly as passed, without the
    default Content-Type, and [undefined] when the property is there but
    [undefined]; only when the options have no such property does the
    request carry the default Content-Type header, and likewise
    credentials "include".  When the options hold a [signal] that is [null]
    or [undefined], the request carries no abort signal at all.  Method and
    body are the caller's. *)
Theorem api_request_overrides plat env net ep options t w url cfg :
  let o := default empty_init options in
  In (EvFetch url cfg) (events_since w (snd (api plat env net ep options t w))) ->
  (forall h, init_headers o = Own h -> cfg_headers cfg = h)
  /\ (init_headers o = Absent ->
      cfg_headers cfg = Some [("Content-Type", "application/json")])
  /\ (forall c, init_credentials o = Own c -> cfg_credentials cfg = c)
  /\ (init_credentials o = Absent -> cfg_credentials cfg = Some "include")
  /\ (init_signal o = Own None -> cfg_signal cfg = None)
  /\ cfg_method cfg = init_method o /\ cfg_body cfg = init_body o.
Proof.
  intros o Hin. apply api_fetch_config in Hin as [_ ->]. fold o.
  unfold build_config, config_literal. cbn.
  repeat split.
  - intros h ->. reflexivity.
  - intros ->. reflexivity.
  - intros c ->. reflexivity.
  - intros ->. reflexivity.
  - intros ->. reflexivity.
Qed.

Lemma api_request_overrides_witness :
  let o := {| init_method := Some "POST"; init_headers := Own (Some [("Accept", "text/plain")]);
              init_signal := Own None; init_credentials := Own None;
              init_body := Some "{}"; init_skipCache := None |} in
  cfg_headers (build_config o 30000) = Some [("Accept", "text/plain")]
  /\ cfg_credentials (build_config o 30000) = None
  /\ cfg_signal (build_config o 30000) = None
  /\ cfg_headers (build_config empty_init 30000) = Some [("Content-Type", "application/json")]
  /\ cfg_credentials (build_config empty_init 30000) = Some "include".
Proof.
  intros o.
  destruct (api_request_overrides web_platform None (net_ok JNull) "/contact" (Some o) None
              (fresh_world 0) "http://127.0.0.1:8000/api/contact" (build_config o 30000)
              ltac:(vm_compute; right; left; reflexivity))
    as (H1 & _ & H3 & _ & H5 & _).
  destruct (api_request_overrides web_platform None (net_ok JNull) "/contact" None None
              (fresh_world 0) "http://127.0.0.1:8000/api/contact"
              (build_config empty_init 30000)
              ltac:(vm_compute; right; left; reflexivity))
    as (_ & H2 & _ & H4 & _).
  split; [exact (H1 _ eq_refl) |]. split; [exact (H3 _ eq_refl) |].
  split; [exact (H5 eq_refl) |]. split; [exact (H2 eq_refl) | exact (H4 eq_refl)].
Defined.

(** ** The URLs of the date-filtered getters *)

Lemma string_app_inv_head (p a b : string) : p +:+ a = p +:+ b -> a = b.
Proof.
  induction p as [| c p IH]; simpl; intros H; [exact H |].
  injection H as H. auto.
Qed.

Lemma string_app_nil_r (a : string) : a +:+ "" = a.
Proof.
  induction a as [| x a IH]; [reflexivity |].
  change (String x (a +:+ "") = String x a). f_equal. exact IH.
Qed.

Lemma N_of_ascii_inj (c c' : ascii) : N_of_ascii c = N_of_ascii c' -> c = c'.
Proof.
  intros H. rewrite <- (ascii_N_embedding c), <- (ascii_N_embedding c'). now rewrite H.
Qed.

Lemma hex_digit_inj (a b : N) :
  (a < 16)%N -> (b < 16)%N -> hex_digit a = hex_digit b -> a = b.
Proof.
  intros Ha Hb H. apply (f_equal N_of_ascii) in H. unfold hex_digit in H.
  destruct (N.ltb_spec a 10), (N.ltb_spec b 10);
    rewrite !N_ascii_embedding in H by lia; lia.
Qed.

Lemma form_encode_cons c s :
  form_encode (String c s) = form_encode_char c (form_encode s).
Proof. reflexivity. Qed.

Lemma form_encode_char_inj c c' u u' :
  form_encode_char c u = form_encode_char c' u' -> c = c' /\ u = u'.
Proof.
  unfold form_encode_char.
  pose proof (N_ascii_bounded c) as Hc. pose proof (N_ascii_bounded c') as Hc'.
  destruct (form_safe c) eqn:Hs, (form_safe c') eqn:Hs';
    [| destruct (N.eqb_spec (N_of_ascii c') 32) | destruct (N.eqb_spec (N_of_ascii c) 32)
     | destruct (N.eqb_spec (N_of_ascii c) 32), (N.eqb_spec (N_of_ascii c') 32)];
    intros H; try discriminate H.
  - injection H as -> ->. auto.
  - injection H as -> _. discriminate Hs.
  - injection H as -> _. discriminate Hs.
  - injection H as <- _. discriminate Hs'.
  - injection H as <- _. discriminate Hs'.
  - injection H as ->. split; [apply N_of_ascii_inj; congruence | reflexivity].
  - injection H as H1 H2 ->. split; [| reflexivity].
    apply hex_digit_inj in H1; [| apply N.Div0.div_lt_upper_bound; lia
                                | apply N.Div0.div_lt_upper_bound; lia].
    apply hex_digit_inj in H2; [| apply N.mod_lt; lia | apply N.mod_lt; lia].
    apply N_of_ascii_inj.
    rewrite (N.div_mod (N_of_ascii c) 16), (N.div_mod (N_of_ascii c') 16) by lia.
    congruence.
Qed.

Lemma form_encode_char_not_separator c u r :
  at_separator r -> form_encode_char c u <> r.
Proof.
  unfold form_encode_char. intros [-> | [r' ->]];
    destruct (form_safe c) eqn:Hs; try destruct (N_of_ascii c =? 32)%N;
    intros H; try discriminate H.
  all: injection H as -> _; discriminate Hs.
Qed.

(** An encoded value ends where the separator stands: the encoding is a
    prefix code over it. *)
Lemma form_encode_inj_sep x x' r r' :
  at_separator r -> at_separator r' ->
  form_encode x +:+ r = form_encode x' +:+ r' -> x = x' /\ r = r'.
Proof.
  revert x'. induction x as [| c x IH]; intros [| c' x'] Hr Hr' H.
  - auto.
  - exfalso. rewrite form_encode_cons in H. simpl in H.
    assert (Hh : form_encode (String c' x') +:+ r'
                 = form_encode_char c' (form_encode x' +:+ r')).
    { rewrite form_encode_cons. unfold form_encode_char.
      destruct (form_safe c'); [| destruct (N_of_ascii c' =? 32)%N]; reflexivity. }
    rewrite form_encode_cons in Hh. rewrite Hh in H.
    exact (form_encode_char_not_separator c' _ r Hr (eq_sym H)).
  - exfalso.
    assert (Hh : form_encode (String c x) +:+ r
                 = form_encode_char c (form_encode x +:+ r)).
    { rewrite form_encode_cons. unfold form_encode_char.
      destruct (form_safe c); [| destruct (N_of_ascii c =? 32)%N]; reflexivity. }
    rewrite Hh in H. simpl in H.
    exact (form_encode_char_not_separator c _ r' Hr' H).
  - assert (Hh : forall a y q, form_encode (String a y) +:+ q
                               = form_encode_char a (form_encode y +:+ q)).
    { intros a y q. rewrite form_encode_cons. unfold form_encode_char.
      destruct (form_safe a); [| destruct (N_of_ascii a =? 32)%N]; reflexivity. }
    rewrite !Hh in H. apply form_encode_char_inj in H as [-> H].
    apply IH in H as [-> ->]; auto.
Qed.

Lemma form_encode_inj x x' : form_encode x = form_encode x' -> x = x'.
Proof.
  intros H.
  destruct (form_encode_inj_sep x x' "" "") as [Hx _]; auto; try (now left).
  now rewrite !string_app_nil_r.
Qed.

Lemma with_query_suffix path s e :
  with_query path s e = path +:+ query_suffix s e.
Proof.
  unfold with_query, query_suffix. cbv zeta.
  destruct (String.eqb (params_toString (date_params s e)) ""); [| reflexivity].
  now rewrite string_app_nil_r.
Qed.


Lemma form_encode_start_date : form_encode "start_date" = "start_date".
Proof. vm_compute. reflexivity. Qed.

Lemma form_encode_end_date : form_encode "end_date" = "end_date".
Proof. vm_compute. reflexivity. Qed.

(** The four shapes of the query part. *)
Lemma query_suffix_cases s e :
  query_suffix s e
  = match truthy_string s, truthy_string e with
    | false, false => ""
    | true, false => "?start_date=" +:+ form_encode (default "" s)
    | false, true => "?end_date=" +:+ form_encode (default "" e)
    | true, true =>
        "?start_date=" +:+ (form_encode (default "" s)
                            +:+ ("&end_date=" +:+ form_encode (default "" e)))
    end.
Proof.
  unfold query_suffix, date_params. cbv zeta.
  destruct (truthy_string s), (truthy_string e); cbn [app params_toString];
    rewrite ?form_encode_start_date, ?form_encode_end_date; reflexivity.
Qed.

Lemma separator_then (r : string) : at_separator ("&end_date=" +:+ r).
Proof. right. exists ("end_date=" +:+ r). reflexivity. Qed.

Lemma query_suffix_inj s1 e1 s2 e2 :
  query_suffix s1 e1 = query_suffix s2 e2 -> date_params s1 e1 = date_params s2 e2.
Proof.
  rewrite !query_suffix_cases. unfold date_params.
  set (X1 := default "" s1). set (Y1 := default "" e1).
  set (X2 := default "" s2). set (Y2 := default "" e2).
  destruct (truthy_string s1), (truthy_string e1), (truthy_string s2), (truthy_string e2);
    intros H; try reflexivity; try discriminate H;
    try (injection H as H; discriminate H).
  - apply string_app_inv_head in H.
    apply form_encode_inj_sep in H as [-> Hr]; auto using separator_then.
    apply string_app_inv_head, form_encode_inj in Hr. now rewrite Hr.
  - exfalso. apply string_app_inv_head in H.
    rewrite <- (string_app_nil_r (form_encode X2)) in H.
    apply form_encode_inj_sep in H as [_ Hr]; [discriminate Hr | apply separator_then | now left].
  - exfalso. apply string_app_inv_head in H.
    rewrite <- (string_app_nil_r (form_encode X1)) in H.
    apply form_encode_inj_sep in H as [_ Hr]; [discriminate Hr | now left | apply separator_then].
  - apply string_app_inv_head, form_encode_inj in H. now rewrite H.
  - apply string_app_inv_head, form_encode_inj in H. now rewrite H.
Qed.
(** X16.  The date-filtered getters ask for the bare path when both dates
    are missing or empty, and two date filters give the same URL, hence the
    same cache entry, only when they are the same filter: no two different
    date ranges are ever answered from one cache entry. *)
Theorem with_query_injective env path o s1 e1 s2 e2 :
  (truthy_string s1 = false -> truthy_string e1 = false -> with_query path s1 e1 = path)
  /\ (with_query path s1 e1 = with_query path s2 e2 ->
      date_params s1 e1 = date_params s2 e2)
  /\ (cache_key env (with_query path s1 e1) o = cache_key env (with_query path s2 e2) o ->
      date_params s1 e1 = date_params s2 e2).
Proof.
  split; [| split].
  - intros Hs He. unfold with_query, date_params. now rewrite Hs, He.
  - rewrite !with_query_suffix. intros H.
    apply string_app_inv_head in H. now apply query_suffix_inj.
  - unfold cache_key, request_url. rewrite !with_query_suffix. intros H.
    do 4 apply string_app_inv_head in H. now apply query_suffix_inj.
Qed.

Lemma with_query_injective_witness :
  with_query "/production-trends" None (Some "") = "/production-trends"
  /\ date_params (Some "2024-01-01") None = date_params (Some "2024-01-01") (Some "").
Proof.
  split.
  - exact (proj1 (with_query_injective None "/production-trends" empty_init
                    None (Some "") None None) eq_refl eq_refl).
  - exact (proj1 (proj2 (with_query_injective None "/production-trends" empty_init
                           (Some "2024-01-01") None (Some "2024-01-01") (Some "")))
             eq_refl).
Defined.

(** * Proofs: the dashboard page *)

(** The [try] block either returns the page with all three pieces of data
    taken from the bundle, or throws with nothing set. *)
Lemma load_bundle_cases plat env net p w :
  match fst (load_bundle plat env net p w) with
  | Returned p' =>
      exists bundle statsData tb tr tc,
        fst (getDashboardBundle plat env net w) = Returned bundle
        /\ get_prop bundle "stats" = inr statsData
        /\ get_prop statsData "total_buildings" = inr tb
        /\ get_prop statsData "total_rooms" = inr tr
        /\ get_prop statsData "total_cctvs" = inr tc
        /\ stats p' = JObj [("total_buildings", tb); ("total_rooms", tr);
                            ("total_cctvs", tc)]
        /\ get_prop bundle "production_trends" = inr (productionTrends p')
        /\ get_prop bundle "unit_performance" = inr (unitPerformance p')
        /\ loading p' = loading p /\ chartLoading p' = chartLoading p
  | Threw _ => True
  end.
Proof.
  unfold load_bundle. js_unfold. simpl.
  destruct (getDashboardBundle plat env net w) as [[bundle | e] w1]; simpl; [| exact I].
  destruct (get_prop bundle "stats") as [e | statsData] eqn:H1; simpl; [exact I |].
  destruct (get_prop bundle "production_trends") as [e | pd] eqn:H2; simpl; [exact I |].
  destruct (get_prop bundle "unit_performance") as [e | ud] eqn:H3; simpl; [exact I |].
  destruct (get_prop bundle "buildings") as [e | bd] eqn:H4; simpl; [exact I |].
  destruct (get_prop statsData "total_buildings") as [e | tb] eqn:H5; simpl; [exact I |].
  destruct (get_prop statsData "total_rooms") as [e | tr] eqn:H6; simpl; [exact I |].
  destruct (get_prop statsData "total_cctvs") as [e | tc] eqn:H7; simpl; [exact I |].
  exists bundle, statsData, tb, tr, tc. cbn. repeat split; auto.
Qed.

Lemma loadData_eq plat env net skipLoading p w :
  let skip := default false skipLoading in
  let p1 := if negb skip then set_loading true p else p in
  fst (loadData plat env net skipLoading p w)
  = Returned (let p2 := match fst (load_bundle plat env net p1 w) with
                        | Returned p' => p'
                        | Threw _ => p1
                        end in
              if negb skip then set_loading false p2 else p2).
Proof.
  intros skip p1. unfold loadData. fold skip. fold p1. js_unfold.
  destruct (load_bundle plat env net p1 w) as [[p' | e] w1]; reflexivity.
Qed.

(** X17.  [loadData] never throws.  Called without [skipLoading] it leaves
    both loading flags off, whether the bundle arrived or not; called with
    [skipLoading] it leaves the flags as they were. *)
Theorem loadData_clears_loading plat env net skipLoading p w :
  exists p',
    fst (loadData plat env net skipLoading p w) = Returned p'
    /\ (default false skipLoading = false ->
        loading p' = false /\ chartLoading p' = false)
    /\ (default false skipLoading = true ->
        loading p' = loading p /\ chartLoading p' = chartLoading p).
Proof.
  rewrite loadData_eq. cbv zeta. eexists. split; [reflexivity |].
  pose proof (load_bundle_cases plat env net
                (if negb (default false skipLoading) then set_loading true p else p) w) as Hc.
  destruct (default false skipLoading); cbn [negb] in *; split; intros Hs;
    try discriminate Hs; cbn; auto.
  destruct (fst (load_bundle plat env net p w)) as [p' | e]; [| auto].
  destruct Hc as (b & sd & tb & tr & tc & _ & _ & _ & _ & _ & _ & _ & _ & Hl & Hcl). auto.
Qed.

Lemma loadData_clears_loading_witness :
  exists p',
    fst (loadData web_platform None net_unknown None initial_page (fresh_world 0)) = Returned p'
    /\ loading p' = false /\ chartLoading p' = false.
Proof.
  destruct (loadData_clears_loading web_platform None net_unknown None initial_page (fresh_world 0))
    as (p' & Hr & Hoff & _).
  exists p'. split; [exact Hr |]. exact (Hoff eq_refl).
Defined.

(** X18.  [loadData] sets the three pieces of page data together or not at
    all: when the bundle cannot be fetched, or is [null], or lacks a
    [stats] object, the stats, trends and unit performance all stay as
    they were, even the ones the bundle did carry. *)
Theorem loadData_all_or_nothing plat env net skipLoading p w p' :
  fst (loadData plat env net skipLoading p w) = Returned p' ->
  page_data p' = page_data p
  \/ exists bundle statsData,
       fst (getDashboardBundle plat env net w) = Returned bundle
       /\ get_prop bundle "stats" = inr statsData
       /\ (exists tb tr tc,
             get_prop statsData "total_buildings" = inr tb
             /\ get_prop statsData "total_rooms" = inr tr
             /\ get_prop statsData "total_cctvs" = inr tc
             /\ stats p' = JObj [("total_buildings", tb); ("total_rooms", tr);
                                 ("total_cctvs", tc)])
       /\ get_prop bundle "production_trends" = inr (productionTrends p')
       /\ get_prop bundle "unit_performance" = inr (unitPerformance p').
Proof.
  rewrite loadData_eq. cbv zeta. intros H. injection H as <-.
  set (p1 := if negb (default false skipLoading) then set_loading true p else p).
  assert (Hp1 : page_data p1 = page_data p).
  { unfold p1. destruct (negb (default false skipLoading)); reflexivity. }
  pose proof (load_bundle_cases plat env net p1 w) as Hc.
  assert (Hfin : forall q, page_data (if negb (default false skipLoading)
                                      then set_loading false q else q) = page_data q).
  { intros q. destruct (negb (default false skipLoading)); reflexivity. }
  destruct (fst (load_bundle plat env net p1 w)) as [p2 | e].
  - right. destruct Hc as (bundle & sd & tb & tr & tc & Hb & Hs & H1 & H2 & H3 & Hst & Hp & Hu & _).
    specialize (Hfin p2). unfold page_data in Hfin. injection Hfin as E1 E2 E3.
    exists bundle, sd. rewrite E1, E2, E3. repeat split; eauto 10.
  - left. now rewrite Hfin.
Qed.

Lemma loadData_all_or_nothing_witness :
  let partial := JObj [("production_trends", JArr [JNum 1]); ("unit_performance", JArr [])] in
  let p' := set_loading false initial_page in
  fst (loadData web_platform None (net_ok partial) None initial_page (fresh_world 0)) = Returned p'
  /\ page_data p' = page_data initial_page.
Proof.
  intros partial p'.
  assert (H : fst (loadData web_platform None (net_ok partial) None initial_page (fresh_world 0))
              = Returned p') by (vm_compute; reflexivity).
  split; [exact H |].
  destruct (loadData_all_or_nothing web_platform None (net_ok partial) None initial_page (fresh_world 0)
              p' H) as [Hsame | (bundle & sd & Hb & Hs & (tb & tr & tc & H1 & _) & _)];
    [exact Hsame |].
  vm_compute in Hb. inversion Hb; subst bundle.
  vm_compute in Hs. inversion Hs; subst sd. discriminate H1.
Defined.

(** X19.  When the bundle arrives with a [stats] object, [loadData] shows
    its three totals and the bundle's trends and unit performance (each
    [undefined] when the bundle lacks it). *)
Theorem loadData_shows_bundle plat env net skipLoading p w bundle statsData tb tr tc :
  fst (getDashboardBundle plat env net w) = Returned bundle ->
  get_prop bundle "stats" = inr statsData ->
  get_prop statsData "total_buildings" = inr tb ->
  get_prop statsData "total_rooms" = inr tr ->
  get_prop statsData "total_cctvs" = inr tc ->
  exists p',
    fst (loadData plat env net skipLoading p w) = Returned p'
    /\ stats p' = JObj [("total_buildings", tb); ("total_rooms", tr); ("total_cctvs", tc)]
    /\ get_prop bundle "production_trends" = inr (productionTrends p')
    /\ get_prop bundle "unit_performance" = inr (unitPerformance p').
Proof.
  intros Hb Hs H1 H2 H3.
  destruct (get_prop_defined bundle "stats" "production_trends" _ Hs) as [pd Hpd].
  destruct (get_prop_defined bundle "stats" "unit_performance" _ Hs) as [ud Hud].
  destruct (get_prop_defined bundle "stats" "buildings" _ Hs) as [bd Hbd].
  rewrite loadData_eq. cbv zeta.
  set (p1 := if negb (default false skipLoading) then set_loading true p else p).
  assert (Hload : fst (load_bundle plat env net p1 w)
                  = Returned {| stats := JObj [("total_buildings", tb); ("total_rooms", tr);
                                              ("total_cctvs", tc)];
                                productionTrends := pd; unitPerformance := ud;
                                loading := loading p1; chartLoading := chartLoading p1 |}).
  { unfold load_bundle. js_unfold.
    destruct (getDashboardBundle plat env net w) as [[b | e] w1]; cbn [fst] in Hb;
      [| discriminate]. injection Hb as ->.
    simpl. rewrite Hs. simpl. rewrite Hpd. simpl. rewrite Hud. simpl. rewrite Hbd. simpl.
    rewrite H1. simpl. rewrite H2. simpl. rewrite H3. reflexivity. }
  rewrite Hload. eexists. split; [reflexivity |].
  destruct (negb (default false skipLoading)); cbn; auto.
Qed.

Lemma loadData_shows_bundle_witness :
  exists p',
    fst (loadData web_platform None (net_ok sample_bundle) None initial_page (fresh_world 0)) = Returned p'
    /\ stats p' = JObj [("total_buildings", JNum 4); ("total_rooms", JNum 9);
                        ("total_cctvs", JNum 21)]
    /\ productionTrends p' = JArr [JObj [("label", JStr "Mon")]]
    /\ unitPerformance p' = JArr [].
Proof.
  destruct (loadData_shows_bundle web_platform None (net_ok sample_bundle) None initial_page
              (fresh_world 0) sample_bundle
              (JObj [("total_buildings", JNum 4); ("total_rooms", JNum 9);
                     ("total_cctvs", JNum 21)])
              (JNum 4) (JNum 9) (JNum 21)
              eq_refl eq_refl eq_refl eq_refl eq_refl) as (p' & Hr & Hst & Hp & Hu).
  exists p'. split; [exact Hr |]. split; [exact Hst |].
  change (get_prop sample_bundle "production_trends")
    with (@inr JsThrown JsValue (JArr [JObj [("label", JStr "Mon")]])) in Hp.
  change (get_prop sample_bundle "unit_performance")
    with (@inr JsThrown JsValue (JArr [])) in Hu.
  injection Hp as <-. injection Hu as <-. split; reflexivity.
Defined.
